(** * sonarr-api: the client of [lib/api.js]

    A shallow embedding of the [SonarrAPI] class (constructor, [_request],
    and the four verb methods) and of [jsonToQueryString], followed by the
    properties of the specification that concern them.

    Conventions of the embedding.
    - A JavaScript string is its sequence of UTF-16 code units.  The model
      covers the strings whose code units are below 256, one [ascii] per
      code unit, so that [String.length], [charAt] and the regular
      expressions count exactly what the engine counts.
    - A JavaScript number is [NaN] or an integer [Num z]; the model covers
      the integers that a double holds exactly and prints in plain decimal
      digits (magnitude below 2^53).
    - An object is the list of its own enumerable properties in the order
      [Object.keys] enumerates them; it carries data properties only, so
      no property of an object is callable.  Converting an object to a
      string therefore raises when the object has an own [toString]
      property, which hides the inherited method, and gives
      "[object Object]" otherwise.
    - [throw] is a [Throw] completion; the promise a verb returns is a
      [settled] value; the HTTP transport ([request-promise]) is a
      variable of the section that holds [_request], and its answer may
      depend on the requests sent before. *)

From Stdlib Require Import String Ascii List ZArith Lia Bool.
From Stdlib Require Import DecimalString DecimalPos.
Import ListNotations.

Local Open Scope string_scope.
Local Open Scope Z_scope.

(** ** JavaScript values *)

Module JS.

Inductive number : Type :=
| NaN
| Num (z : Z).

#[warnings="-register-all"]
Inductive value : Type :=
| VUndefined
| VNull
| VBool (b : bool)
| VNum (n : number)
| VStr (s : string)
| VObj (props : list (string * value)).

(** What the source raises: [throw new TypeError(msg)] written in the
    source, or the TypeError the engine raises itself when a property is
    read on [undefined]/[null] or a non-function is called. *)
Inductive thrown : Type :=
| UserTypeError (msg : string)
| NativeTypeError.

Inductive completion (A : Type) : Type :=
| Normal (a : A)
| Throw (t : thrown).

Arguments Normal {A} a.
Arguments Throw {A} t.

Definition bindC {A B} (c : completion A) (k : A -> completion B) : completion B :=
  match c with
  | Normal a => k a
  | Throw t => Throw t
  end.

Notation "'let*' x ':=' c 'in' k" := (bindC c (fun x => k))
  (at level 10, x name, c at level 100, k at level 200).

Notation "'let*' ' pat ':=' c 'in' k" :=
  (bindC c (fun x => match x with pat => k end))
  (at level 10, pat pattern, c at level 100, k at level 200).

(** ToBoolean *)
Definition truthy (v : value) : bool :=
  match v with
  | VUndefined | VNull => false
  | VBool b => b
  | VNum NaN => false
  | VNum (Num z) => negb (z =? 0)
  | VStr s => negb (String.eqb s "")
  | VObj _ => true
  end.

(** [a || b] *)
Definition or_else (a b : value) : value := if truthy a then a else b.

(** [typeof v] *)
Definition typeof (v : value) : string :=
  match v with
  | VUndefined => "undefined"
  | VNull => "object"
  | VBool _ => "boolean"
  | VNum _ => "number"
  | VStr _ => "string"
  | VObj _ => "object"
  end.

Definition string_of_Z (z : Z) : string :=
  NilZero.string_of_int (Z.to_int z).

(** The string that ToString yields for [v] when it yields one. *)
Definition to_string (v : value) : string :=
  match v with
  | VUndefined => "undefined"
  | VNull => "null"
  | VBool true => "true"
  | VBool false => "false"
  | VNum NaN => "NaN"
  | VNum (Num z) => string_of_Z z
  | VStr s => s
  | VObj _ => "[object Object]"
  end.

(** [v === undefined], [v === null], [v === false], [v === 'lit'] *)
Definition is_undefined (v : value) : bool :=
  match v with VUndefined => true | _ => false end.

Definition is_null (v : value) : bool :=
  match v with VNull => true | _ => false end.

Definition is_false (v : value) : bool :=
  match v with VBool false => true | _ => false end.

Definition is_string (v : value) (lit : string) : bool :=
  match v with VStr s => String.eqb s lit | _ => false end.

(** [o[key]] on an object's own properties. *)
Fixpoint lookup (key : string) (props : list (string * value)) : value :=
  match props with
  | [] => VUndefined
  | (k, v) :: rest => if String.eqb k key then v else lookup key rest
  end.

(** [v.name] for a name that no built-in prototype defines: a TypeError
    on [undefined] and [null], [undefined] on the other primitives. *)
Definition prop (v : value) (name : string) : completion value :=
  match v with
  | VUndefined | VNull => Throw NativeTypeError
  | VObj props => Normal (lookup name props)
  | _ => Normal VUndefined
  end.

(** [o] has an own property [key]. *)
Fixpoint has_own (key : string) (props : list (string * value)) : bool :=
  match props with
  | [] => false
  | (k, _) :: rest => String.eqb k key || has_own key rest
  end.

(** ToString, and ToPrimitive before a string concatenation: a primitive
    always has a string form; for an object the [toString] method is
    looked up, and an own [toString] property, not callable, leaves no
    method that returns a primitive, so the conversion raises. *)
Definition stringifiable (v : value) : bool :=
  match v with
  | VObj props => negb (has_own "toString" props)
  | _ => true
  end.

Definition ToString (v : value) : completion string :=
  if stringifiable v then Normal (to_string v) else Throw NativeTypeError.

(** ['lit' + v] *)
Definition concat_string (s : string) (v : value) : completion string :=
  let* t := ToString v in Normal (s ++ t).

(** [array.map(f)] for a callback that may raise: the elements are
    visited in order and the first raise ends the call. *)
Fixpoint map_c {A B} (f : A -> completion B) (l : list A)
  : completion (list B) :=
  match l with
  | [] => Normal []
  | a :: rest =>
      let* b := f a in
      let* bs := map_c f rest in
      Normal (b :: bs)
  end.

(** The own enumerable properties of an object value. *)
Definition own_properties (v : value) : list (string * value) :=
  match v with
  | VObj props => props
  | _ => []
  end.

(** [Object.keys(o)] *)
Definition keys (props : list (string * value)) : list string :=
  map fst props.

(** [Object.assign(target, { key: v })]: an existing key keeps its place
    and takes the new value, a new key goes last. *)
Fixpoint assign {A} (target : list (string * A)) (key : string) (v : A)
  : list (string * A) :=
  match target with
  | [] => [(key, v)]
  | (k, old) :: rest =>
      if String.eqb k key then (k, v) :: rest
      else (k, old) :: assign rest key v
  end.


(** [Array.prototype.join]: [undefined] and [null] elements are rendered
    as the empty string, the others by ToString. *)
Definition join_item (v : value) : completion string :=
  match v with
  | VUndefined | VNull => Normal ""
  | _ => ToString v
  end.

Fixpoint join (sep : string) (items : list value) : completion string :=
  match items with
  | [] => Normal ""
  | [v] => join_item v
  | v :: rest =>
      let* first := join_item v in
      let* others := join sep rest in
      Normal (first ++ sep ++ others)
  end.

End JS.

Import JS.

(** ** Built-in string operations used by the source *)

Module Builtins.

Definition code (c : ascii) : Z := Z.of_N (N_of_ascii c).

Definition in_range (lo hi c : ascii) : bool :=
  (code lo <=? code c) && (code c <=? code hi).

(** [s.charAt(0)]: the first code unit as a string, or the empty string. *)
Definition charAt0 (s : string) : string :=
  match s with
  | EmptyString => ""
  | String c _ => String c EmptyString
  end.

Fixpoint strip_prefix (p s : string) : option string :=
  match p, s with
  | EmptyString, _ => Some s
  | String a p', String b s' =>
      if Ascii.eqb a b then strip_prefix p' s' else None
  | String _ _, EmptyString => None
  end.

(** [s.replace(/^https?:\/\//, '')]: the pattern has no [i] flag and is
    anchored at the start, so at most one match is removed. *)
Definition replace_scheme (s : string) : string :=
  match strip_prefix "http" s with
  | Some rest =>
      match strip_prefix "s://" rest with
      | Some host => host
      | None =>
          match strip_prefix "://" rest with
          | Some host => host
          | None => s
          end
      end
  | None => s
  end.

(** The character class [[^a-z0-9]]. *)
Definition not_lower_alnum (c : ascii) : bool :=
  negb (in_range "a" "z" c || in_range "0" "9" c).

(** Does [/[^a-z0-9]{n}/] match at the start of [s]? *)
Fixpoint matches_here (n : nat) (s : string) : bool :=
  match n, s with
  | O, _ => true
  | S n', String c s' => not_lower_alnum c && matches_here n' s'
  | S _, EmptyString => false
  end.

(** [s.search(/[^a-z0-9]{32}/)]: the index of the first match, or -1. *)
Fixpoint search_from (i : Z) (s : string) : Z :=
  if matches_here 32%nat s then i
  else match s with
       | EmptyString => -1
       | String _ s' => search_from (i + 1) s'
       end.

Definition search_invalid (s : string) : Z := search_from 0 s.

(** *** parseInt *)

(** StrWhiteSpaceChar among the code units below 256. *)
Definition is_white (c : ascii) : bool :=
  let n := code c in
  (n =? 9) || (n =? 10) || (n =? 11) || (n =? 12) || (n =? 13)
  || (n =? 32) || (n =? 160).

Fixpoint trim_start (s : string) : string :=
  match s with
  | String c s' => if is_white c then trim_start s' else s
  | EmptyString => s
  end.

Definition digit_value (c : ascii) : option Z :=
  if in_range "0" "9" c then Some (code c - 48)
  else if in_range "a" "z" c then Some (code c - 87)
  else if in_range "A" "Z" c then Some (code c - 55)
  else None.

(** The longest prefix of radix-[r] digits, accumulated from [acc];
    [None] when that prefix is empty. *)
Fixpoint digits (r : Z) (seen : bool) (acc : Z) (s : string) : option Z :=
  match s with
  | String c s' =>
      match digit_value c with
      | Some d =>
          if d <? r then digits r true (acc * r + d) s'
          else if seen then Some acc else None
      | None => if seen then Some acc else None
      end
  | EmptyString => if seen then Some acc else None
  end.

(** What [parseInt] reads in a string: leading white space, a sign, an
    optional [0x]/[0X] prefix, then the digits; NaN when there is no
    digit. *)
Definition parse_integer (input : string) : number :=
  let s := trim_start input in
  let '(sign, s) :=
    match s with
    | String "-" s' => (-1, s')
    | String "+" s' => (1, s')
    | _ => (1, s)
    end in
  let '(r, s) :=
    match s with
    | String "0" (String "x" s') => (16, s')
    | String "0" (String "X" s') => (16, s')
    | _ => (10, s)
    end in
  match digits r false 0 s with
  | Some n => Num (sign * n)
  | None => NaN
  end.

(** [parseInt(v)] with no radix argument: ToString of the argument, which
    may raise, then the reading of the string, which does not. *)
Definition parseInt (v : value) : completion number :=
  let* input := ToString v in Normal (parse_integer input).

(** *** encodeURIComponent *)

Definition hex_digit (n : Z) : ascii :=
  ascii_of_N (Z.to_N (if n <? 10 then 48 + n else 55 + n)).

(** [%XX], upper-case hexadecimal. *)
Definition percent (byte : Z) : string :=
  String "%" (String (hex_digit (byte / 16)) (String (hex_digit (byte mod 16)) "")).

(** uriUnreserved: letters, digits and [- _ . ! ~ * ' ( )]. *)
Definition unreserved (c : ascii) : bool :=
  in_range "a" "z" c || in_range "A" "Z" c || in_range "0" "9" c
  || existsb (Ascii.eqb c) ["-"; "_"; "."; "!"; "~"; "*"; "'"; "("; ")"]%char.

(** The UTF-8 octets of a code unit below 256. *)
Definition utf8_unit (c : ascii) : list Z :=
  let n := code c in
  if n <? 128 then [n] else [192 + n / 64; 128 + n mod 64].

Fixpoint utf8 (s : string) : list Z :=
  match s with
  | EmptyString => []
  | String c s' => utf8_unit c ++ utf8 s'
  end.

Definition encode_unit (c : ascii) : string :=
  if unreserved c then String c ""
  else String.concat "" (map percent (utf8_unit c)).

Fixpoint encodeURIComponent (s : string) : string :=
  match s with
  | EmptyString => ""
  | String c s' => encode_unit c ++ encodeURIComponent s'
  end.

(** *** Buffer(...).toString('base64') *)

Definition b64_char (n : Z) : ascii :=
  ascii_of_N (Z.to_N
    (if n <? 26 then 65 + n
     else if n <? 52 then 71 + n
     else if n <? 62 then n - 4
     else if n =? 62 then 43 else 47)).

Fixpoint base64 (bytes : list Z) : string :=
  match bytes with
  | [] => ""
  | [a] =>
      String (b64_char (a / 4))
        (String (b64_char (a mod 4 * 16)) "==")
  | [a; b] =>
      String (b64_char (a / 4))
        (String (b64_char (a mod 4 * 16 + b / 16))
           (String (b64_char (b mod 16 * 4)) "="))
  | a :: b :: c :: rest =>
      String (b64_char (a / 4))
        (String (b64_char (a mod 4 * 16 + b / 16))
           (String (b64_char (b mod 16 * 4 + c / 64))
              (String (b64_char (c mod 64)) (base64 rest))))
  end.

(** [new Buffer(s).toString('base64')] *)
Definition buffer_base64 (s : string) : string := base64 (utf8 s).

End Builtins.

Import Builtins.

(** ** [jsonToQueryString] *)

(** The callback of [map]: it returns nothing, that is [undefined], for a
    key whose value is [null]. *)
Definition query_item (json : list (string * value)) (key : string)
  : completion value :=
  if negb (is_null (lookup key json))
  then let* text := ToString (lookup key json) in
       Normal (VStr (encodeURIComponent key ++ "="
                     ++ encodeURIComponent text))
  else Normal VUndefined.

Definition jsonToQueryString (json : list (string * value))
  : completion string :=
  let* items := map_c (query_item json) (keys json) in
  let* joined := join "&" items in
  Normal ("?" ++ joined).

(** ** The client *)

Module SonarrAPI.

(** The [options] argument of the constructor; a property that is not
    given reads as [VUndefined]. *)
Record Options : Type := {
  o_hostname : value;
  o_port : value;
  o_apiKey : value;
  o_urlBase : value;
  o_ssl : value;
  o_username : value;
  o_password : value
}.

(** The fields of a constructed instance. *)
Record Client : Type := {
  hostname : string;
  port : value;
  apiKey : string;
  urlBase : value;
  ssl : value;
  username : value;
  password : value;
  auth : bool;
  serverApi : string
}.

(** Method calls on a field: only a string has [replace], [search] and
    [charAt]; on anything else the call raises the engine's TypeError. *)
Definition call_replace (v : value) : completion string :=
  match v with
  | VStr s => Normal (replace_scheme s)
  | _ => Throw NativeTypeError
  end.

Definition call_search (v : value) : completion (string * Z) :=
  match v with
  | VStr s => Normal (s, search_invalid s)
  | _ => Throw NativeTypeError
  end.

Definition call_charAt0 (v : value) : completion string :=
  match v with
  | VStr s => Normal (charAt0 s)
  | _ => Throw NativeTypeError
  end.

(** [try { ... } catch (e) { throw new TypeError(msg) }] *)
Definition try_catch {A} (body : completion A) (msg : string) : completion A :=
  match body with
  | Normal a => Normal a
  | Throw _ => Throw (UserTypeError msg)
  end.

Definition constructor (options : Options) : completion Client :=
  (* Gather constructor parameters *)
  let hostname := o_hostname options in
  let port := or_else (o_port options) (VNum (Num 8989)) in
  let apiKey := o_apiKey options in
  let urlBase := o_urlBase options in
  let ssl := or_else (o_ssl options) (VBool false) in
  let username := or_else (o_username options) VNull in
  let password := or_else (o_password options) VNull in
  (* `http_auth` requested *)
  let auth := truthy username && truthy password in
  (* `hostname` in valid *)
  if negb (truthy hostname) then Throw (UserTypeError "Hostname is empty") else
  (* Sanitize `hostname` *)
  let* hostname := call_replace hostname in
  (* Validate `port` *)
  let* port :=
    if negb (truthy port) || negb (String.eqb (typeof port) "number")
    then let* n := try_catch (parseInt port) "Port is not a number" in
         Normal (VNum n)
    else Normal port in
  (* Valid characters in API key *)
  let* '(apiKey, found) := call_search apiKey in
  if negb (found =? -1) then Throw (UserTypeError "API Key is an invalid") else
  (* URL Base exists && is valid *)
  let* urlBase :=
    if truthy urlBase
    then let* first := call_charAt0 urlBase in
         if negb (String.eqb first "/")
         then let* prefixed := concat_string "/" urlBase in
              Normal (VStr prefixed)
         else Normal urlBase
    else Normal urlBase in
  (* Construct the URL *)
  let* serverUrl :=
    concat_string
      ("http" ++ (if negb (is_false ssl) then "s" else "") ++ "://"
       ++ hostname ++ ":")
      port in
  (* Add in the base URL if present *)
  let* serverUrl :=
    if truthy urlBase then concat_string serverUrl urlBase
    else Normal serverUrl in
  (* Completed API URL *)
  Normal {|
    hostname := hostname;
    port := port;
    apiKey := apiKey;
    urlBase := urlBase;
    ssl := ssl;
    username := username;
    password := password;
    auth := auth;
    serverApi := serverUrl ++ "/api/"
  |}.

(** *** Requests *)

Inductive method : Type := GET | POST | PUT | DELETE.

Definition method_name (m : method) : string :=
  match m with
  | GET => "GET"
  | POST => "POST"
  | PUT => "PUT"
  | DELETE => "DELETE"
  end.

Definition method_eqb (a b : method) : bool :=
  String.eqb (method_name a) (method_name b).

(** The [actions] object the verbs hand to [_request]. *)
Record Actions : Type := {
  relativeUrl : value;
  a_method : method;
  parameters : value
}.

(** The [options] object handed to [request-promise]; [strictSSL] is
    [None] when the key is not set. *)
Record Request : Type := {
  url : string;
  headers : list (string * string);
  strictSSL : option bool;
  r_method : string;
  json : value
}.

(** How the transport settles: with the decoded response, or with a
    failure object. *)
Inductive transport_result : Type :=
| Success (response : value)
| Failure (e : value).

(** The promise a verb returns, once settled. *)
Inductive settled : Type :=
| Fulfilled (v : value)
| Rejected (t : thrown).

(** What a call leaves behind: the requests handed to the transport and
    the values written by [console.log], oldest first. *)
Record world : Type := {
  sent : list Request;
  console : list value
}.

Definition M (A : Type) : Type := world -> completion A * world.

Definition ret {A} (a : A) : M A := fun w => (Normal a, w).

Definition throw {A} (t : thrown) : M A := fun w => (Throw t, w).

Definition bind {A B} (c : M A) (k : A -> M B) : M B :=
  fun w =>
    match c w with
    | (Normal a, w') => k a w'
    | (Throw t, w') => (Throw t, w')
    end.

Notation "x <- c ;; k" := (bind c (fun x => k))
  (at level 61, c at next level, right associativity).

(** A computation that touches neither the transport nor the console. *)
Definition lift {A} (c : completion A) : M A := fun w => (c, w).

Definition console_log (v : value) : M unit :=
  fun w => (Normal tt, {| sent := sent w; console := console w ++ [v] |}).

(** [promise.then(f)] for a callback that returns a value. *)
Definition then_ (p : settled) (f : value -> value) : settled :=
  match p with
  | Fulfilled v => Fulfilled (f v)
  | Rejected t => Rejected t
  end.

(** The body of the [catch] callback of [_request]. *)
Definition on_failure (e : value) : completion value :=
  let* response := prop e "response" in
  let* body := prop response "body" in
  let* error := prop body "error" in
  (* API key is invalid *)
  if truthy error && is_string error "Unauthorized"
  then Normal body
  else Normal e.

(** A promise callback that raises rejects the promise. *)
Definition settle (c : completion value) : settled :=
  match c with
  | Normal v => Fulfilled v
  | Throw t => Rejected t
  end.

Section Transport.

(** [request-promise]: the answer of the network to a request, given the
    requests it was sent before. *)
Variable rp : list Request -> Request -> transport_result.

Definition rp_call (options : Request) : M transport_result :=
  fun w => (Normal (rp (sent w) options),
            {| sent := sent w ++ [options]; console := console w |}).

(** sends request to Sonarr API *)
Definition _request (this : Client) (actions : Actions) : M settled :=
  (* Append the server URL, api, and relative url and - if GET params those too *)
  apiUrl <- lift (concat_string (serverApi this) (relativeUrl actions)) ;;
  apiUrl <-
    (if truthy (parameters actions) && method_eqb (a_method actions) GET
     then query <- lift (jsonToQueryString
                           (own_properties (parameters actions))) ;;
          ret (apiUrl ++ query)
     else ret apiUrl) ;;
  (* Build the HTTP request headers *)
  let headers := [("X-API-KEY", apiKey this)] in
  (* append the type *)
  let headers :=
    if method_eqb (a_method actions) GET
    then assign headers "Accept" "application/json"
    else assign headers "Content-Type" "application/json" in
  (* append auth to headers *)
  headers <-
    (if auth this
     then buffer <- lift (let* user := ToString (username this) in
                          let* pass := ToString (password this) in
                          Normal (user ++ ":" ++ pass)) ;;
          ret (assign headers "Authorization"
                      ("Basic " ++ buffer_base64 buffer))
     else ret headers) ;;
  (* request options; usually we don't have valid ssl certs, so ignore it *)
  let options := {|
    url := apiUrl;
    headers := headers;
    strictSSL := if truthy (ssl this) then Some false else None;
    r_method := method_name (a_method actions);
    json :=
      if existsb (method_eqb (a_method actions)) [POST; PUT; DELETE]
      then parameters actions
      else VBool true
  |} in
  (* Issue request-promise and return *)
  outcome <- rp_call options ;;
  match outcome with
  | Success response =>
      _ <- console_log response ;;
      ret (Fulfilled response)
  | Failure e => ret (settle (on_failure e))
  end.

(** A parameter with a default value takes it when the argument is
    [undefined], which is also what an omitted argument reads as. *)
Definition default (arg d : value) : value :=
  if is_undefined arg then d else arg.

(** retrieve from API via GET *)
Definition get (this : Client) (relativeUrl parameters : value) : M settled :=
  let parameters := default parameters (VObj []) in
  (* no Relative url was passed *)
  if is_undefined relativeUrl
  then throw (UserTypeError "Relative URL is not set") else
  (* parameters isn't an object *)
  if negb (String.eqb (typeof parameters) "object")
  then throw (UserTypeError "Parameters must be type object") else
  let actions := {| relativeUrl := relativeUrl; a_method := GET;
                    parameters := parameters |} in
  p <- _request this actions ;;
  ret (then_ p (fun data => data)).

(** perform an action via POST *)
Definition post (this : Client) (relativeUrl parameters : value) : M settled :=
  let parameters := default parameters (VObj []) in
  if is_undefined relativeUrl
  then throw (UserTypeError "Relative URL is not set") else
  if negb (String.eqb (typeof parameters) "object")
  then throw (UserTypeError "Parameters must be type object") else
  let actions := {| relativeUrl := relativeUrl; a_method := POST;
                    parameters := parameters |} in
  p <- _request this actions ;;
  ret (then_ p (fun data => data)).

(** perform an action via PUT *)
Definition put (this : Client) (relativeUrl parameters : value) : M settled :=
  let parameters := default parameters (VObj []) in
  if is_undefined relativeUrl
  then throw (UserTypeError "Relative URL is not set") else
  if negb (String.eqb (typeof parameters) "object")
  then throw (UserTypeError "Parameters must be type object") else
  let actions := {| relativeUrl := relativeUrl; a_method := PUT;
                    parameters := parameters |} in
  p <- _request this actions ;;
  ret (then_ p (fun data => data)).

(** perform an action via DELETE *)
Definition delete (this : Client) (relativeUrl parameters : value) : M settled :=
  let parameters := default parameters (VObj []) in
  if is_undefined relativeUrl
  then throw (UserTypeError "Relative URL is not set") else
  if negb (String.eqb (typeof parameters) "object")
  then throw (UserTypeError "Parameters must be type object") else
  let actions := {| relativeUrl := relativeUrl; a_method := DELETE;
                    parameters := parameters |} in
  p <- _request this actions ;;
  ret (then_ p (fun data => data)).

(** The verb method for a given HTTP method. *)
Definition verb (m : method) : Client -> value -> value -> M settled :=
  match m with
  | GET => get
  | POST => post
  | PUT => put
  | DELETE => delete
  end.

End Transport.

End SonarrAPI.

Import SonarrAPI.

(** * Definitions used by the statements *)

(** ** The specification's readings *)




(** The specification's reading of the sanitizing step, with the match
    case-sensitive as the source has it: a leading [https://] or
    [http://] is dropped. *)
Definition strip_scheme (h : string) : string :=
  match strip_prefix "https://" h with
  | Some rest => rest
  | None =>
      match strip_prefix "http://" h with
      | Some rest => rest
      | None => h
      end
  end.

(** The specification's reading of one pair: key and value URL-encoded
    around [=]; a key whose value is [null] gives an empty segment. *)
Definition pair_of (kv : string * value) : string :=
  if is_null (snd kv) then ""
  else encodeURIComponent (fst kv) ++ "="
       ++ encodeURIComponent (to_string (snd kv)).

(** [q.split('&')] *)
Fixpoint split_amp (s : string) : list string :=
  match s with
  | EmptyString => [""]
  | String c s' =>
      if Ascii.eqb c "&" then "" :: split_amp s'
      else match split_amp s' with
           | seg :: segs => String c seg :: segs
           | [] => [String c ""]
           end
  end.

Fixpoint all_chars (p : ascii -> bool) (s : string) : bool :=
  match s with
  | EmptyString => true
  | String c s' => p c && all_chars p s'
  end.

Definition lower_alnum (c : ascii) : bool := negb (not_lower_alnum c).

Definition no_amp (s : string) : bool :=
  all_chars (fun c => negb (Ascii.eqb c "&")) s.

Definition nullish (v : value) : bool := is_undefined v || is_null v.

(** ** Parts of the code, named for the proofs *)

(** The two validation steps of the constructor that rewrite a field. *)
Definition port_step (port : value) : completion value :=
  if negb (truthy port) || negb (String.eqb (typeof port) "number")
  then let* n := try_catch (parseInt port) "Port is not a number" in
       Normal (VNum n)
  else Normal port.

Definition urlBase_step (urlBase : value) : completion value :=
  if truthy urlBase
  then let* first := call_charAt0 urlBase in
       if negb (String.eqb first "/")
       then let* prefixed := concat_string "/" urlBase in
            Normal (VStr prefixed)
       else Normal urlBase
  else Normal urlBase.

(** The end of the constructor: the URL is put together from the
    validated fields and the instance is complete. *)
Definition finish (o : Options) (h : string) (p : value) (k : string)
           (u : value) : completion Client :=
  let ssl := or_else (o_ssl o) (VBool false) in
  let username := or_else (o_username o) VNull in
  let password := or_else (o_password o) VNull in
  let* serverUrl :=
    concat_string
      ("http" ++ (if negb (is_false ssl) then "s" else "") ++ "://"
       ++ h ++ ":")
      p in
  let* serverUrl :=
    if truthy u then concat_string serverUrl u else Normal serverUrl in
  Normal {|
    hostname := h;
    port := p;
    apiKey := k;
    urlBase := u;
    ssl := ssl;
    username := username;
    password := password;
    auth := truthy username && truthy password;
    serverApi := serverUrl ++ "/api/"
  |}.

(** The query string of a mapping all of whose values can be converted:
    the text of [jsonToQueryString] when it returns. *)
Definition query_text (json : list (string * value)) : string :=
  "?" ++ String.concat "&"
           (map (fun key =>
                   if is_null (lookup key json) then ""
                   else encodeURIComponent key ++ "="
                        ++ encodeURIComponent (to_string (lookup key json)))
                (keys json)).

(** The element that the callback of [map] returns for a key whose value
    can be converted. *)
Definition item_of (json : list (string * value)) (key : string) : value :=
  if is_null (lookup key json) then VUndefined
  else VStr (encodeURIComponent key ++ "="
             ++ encodeURIComponent (to_string (lookup key json))).

(** Every value of the mapping is [null] or can be converted to a
    string. *)
Definition query_ok (json : list (string * value)) : bool :=
  forallb (fun key => is_null (lookup key json)
                      || stringifiable (lookup key json))
          (keys json).

(** The credentials of a client in basic-auth mode can be converted to
    strings. *)
Definition sendable (this : Client) : bool :=
  if auth this
  then stringifiable (username this) && stringifiable (password this)
  else true.

(** Nothing that [_request] converts to a string raises: the relative
    URL, the parameters of a GET, the credentials. *)
Definition request_ok (this : Client) (m : method) (rel ps : value) : bool :=
  stringifiable rel
  && (if truthy ps && method_eqb m GET then query_ok (own_properties ps)
      else true)
  && sendable this.

(** The [options] object that [_request] builds when every conversion
    succeeds. *)
Definition request_of (this : Client) (m : method) (rel ps : value)
  : Request := {|
  url :=
    if truthy ps && method_eqb m GET
    then (serverApi this ++ to_string rel) ++ query_text (own_properties ps)
    else serverApi this ++ to_string rel;
  headers :=
    (let hs := [("X-API-KEY", apiKey this)] in
     let hs := if method_eqb m GET
               then assign hs "Accept" "application/json"
               else assign hs "Content-Type" "application/json" in
     if auth this
     then assign hs "Authorization"
            ("Basic " ++ buffer_base64 (to_string (username this) ++ ":"
                                        ++ to_string (password this)))
     else hs);
  strictSSL := if truthy (ssl this) then Some false else None;
  r_method := method_name m;
  json := if existsb (method_eqb m) [POST; PUT; DELETE] then ps
          else VBool true
|}.

(** The promise [_request] returns for an answer of the transport. *)
Definition outcome (r : transport_result) : settled :=
  match r with
  | Success response => Fulfilled response
  | Failure e => settle (on_failure e)
  end.

(** The world after one request [req] that the transport answered by [r]. *)
Definition after (w : world) (req : Request) (r : transport_result) : world := {|
  sent := sent w ++ [req];
  console := match r with
             | Success response => console w ++ [response]
             | Failure _ => console w
             end
|}.


(** ** Sample inputs *)

Definition good_key : string := "a1b2c3d4e5f6a7b8c9d0e1f2a3b4c5d6".

(** Options with a host name and a key only. *)
Definition minimal (host key : value) : Options := {|
  o_hostname := host;
  o_port := VUndefined;
  o_apiKey := key;
  o_urlBase := VUndefined;
  o_ssl := VUndefined;
  o_username := VUndefined;
  o_password := VUndefined
|}.

Definition with_port (o : Options) (p : value) : Options := {|
  o_hostname := o_hostname o;
  o_port := p;
  o_apiKey := o_apiKey o;
  o_urlBase := o_urlBase o;
  o_ssl := o_ssl o;
  o_username := o_username o;
  o_password := o_password o
|}.

Definition with_urlBase (o : Options) (u : value) : Options := {|
  o_hostname := o_hostname o;
  o_port := o_port o;
  o_apiKey := o_apiKey o;
  o_urlBase := u;
  o_ssl := o_ssl o;
  o_username := o_username o;
  o_password := o_password o
|}.

Definition with_ssl (o : Options) (tls : value) : Options := {|
  o_hostname := o_hostname o;
  o_port := o_port o;
  o_apiKey := o_apiKey o;
  o_urlBase := o_urlBase o;
  o_ssl := tls;
  o_username := o_username o;
  o_password := o_password o
|}.

Definition with_credentials (o : Options) (user pass : value) : Options := {|
  o_hostname := o_hostname o;
  o_port := o_port o;
  o_apiKey := o_apiKey o;
  o_urlBase := o_urlBase o;
  o_ssl := o_ssl o;
  o_username := user;
  o_password := pass
|}.

(** The instance that [new SonarrAPI({hostname: 'localhost', apiKey: k})]
    yields when it is accepted. *)
Definition local_client (k : string) : Client := {|
  hostname := "localhost";
  port := VNum (Num 8989);
  apiKey := k;
  urlBase := VUndefined;
  ssl := VBool false;
  username := VNull;
  password := VNull;
  auth := false;
  serverApi := "http://localhost:8989/api/"
|}.


(** [{hostname: 'example.com', port: 443, apiKey, urlBase: 'sonarr', ssl: true}] *)
Definition tls_options : Options :=
  with_ssl (with_urlBase (with_port (minimal (VStr "example.com") (VStr good_key))
                            (VNum (Num 443)))
              (VStr "sonarr"))
    (VBool true).

Definition tls_client : Client := {|
  hostname := "example.com";
  port := VNum (Num 443);
  apiKey := good_key;
  urlBase := VStr "/sonarr";
  ssl := VBool true;
  username := VNull;
  password := VNull;
  auth := false;
  serverApi := "https://example.com:443/sonarr/api/"
|}.


Definition auth_client : Client := {|
  hostname := "localhost";
  port := VNum (Num 8989);
  apiKey := good_key;
  urlBase := VUndefined;
  ssl := VBool false;
  username := VStr "admin";
  password := VStr "secret";
  auth := true;
  serverApi := "http://localhost:8989/api/"
|}.

(** The failure object of a refused connection: [request-promise] raises
    a [RequestError] whose [response] is not set. *)
Definition connection_refused : value :=
  VObj [("name", VStr "RequestError");
        ("message", VStr "Error: connect ECONNREFUSED 127.0.0.1:8989")].

(** A 401 answer, as [request-promise] reports it. *)
Definition unauthorized_body : value := VObj [("error", VStr "Unauthorized")].

Definition unauthorized : value :=
  VObj [("name", VStr "StatusCodeError");
        ("statusCode", VNum (Num 401));
        ("response", VObj [("statusCode", VNum (Num 401));
                           ("body", unauthorized_body)])].

(** A 502 answer with an empty body: the response is there, its [body]
    is not set. *)
Definition bad_gateway : value :=
  VObj [("name", VStr "StatusCodeError");
        ("statusCode", VNum (Num 502));
        ("response", VObj [("statusCode", VNum (Num 502))])].

(** A 404 answer with a JSON body. *)
Definition not_found : value :=
  VObj [("name", VStr "StatusCodeError");
        ("statusCode", VNum (Num 404));
        ("response", VObj [("statusCode", VNum (Num 404));
                           ("body", VObj [("message", VStr "NotFound")])])].

Definition quiet : world := {| sent := []; console := [] |}.

Definition answer_empty : list Request -> Request -> transport_result :=
  fun _ _ => Success (VObj []).

(** ** Readings used by the further properties *)

(** A key holds a run of 32 consecutive code units outside [a-z0-9]. *)
Definition has_invalid_run (k : string) : Prop :=
  exists a b c,
    k = a ++ b ++ c
    /\ String.length b = 32%nat
    /\ all_chars not_lower_alnum b = true.

(** The number that a sequence of decimal digits denotes, read from the
    left with [acc] already read. *)
Fixpoint value_of (d : Decimal.uint) (acc : Z) : Z :=
  match d with
  | Decimal.Nil => acc
  | Decimal.D0 l => value_of l (acc * 10 + 0)
  | Decimal.D1 l => value_of l (acc * 10 + 1)
  | Decimal.D2 l => value_of l (acc * 10 + 2)
  | Decimal.D3 l => value_of l (acc * 10 + 3)
  | Decimal.D4 l => value_of l (acc * 10 + 4)
  | Decimal.D5 l => value_of l (acc * 10 + 5)
  | Decimal.D6 l => value_of l (acc * 10 + 6)
  | Decimal.D7 l => value_of l (acc * 10 + 7)
  | Decimal.D8 l => value_of l (acc * 10 + 8)
  | Decimal.D9 l => value_of l (acc * 10 + 9)
  end.

(** A property read that does not raise: [undefined] where [prop] would
    raise or find nothing. *)
Definition field (v : value) (name : string) : value :=
  match v with
  | VObj props => lookup name props
  | _ => VUndefined
  end.

(** The failure carries [response.body]: neither the failure, nor its
    response, nor the body of the response is [undefined] or [null]. *)
Definition has_body (e : value) : bool :=
  negb (nullish e)
  && negb (nullish (field e "response"))
  && negb (nullish (field (field e "response") "body")).


(** The characters a query string is made of: the unreserved ones, the
    percent sign of the escapes, and the three separators. *)
Definition query_char (c : ascii) : bool :=
  unreserved c || existsb (Ascii.eqb c) ["%"; "="; "&"; "?"]%char.

(** [n] separators in a row. *)
Fixpoint ampersands (n : nat) : string :=
  match n with
  | O => ""
  | S n' => String "&" (ampersands n')
  end.

(** A pair written without any escape. *)
Definition plain_pair (kv : string * value) : string :=
  fst kv ++ "=" ++ to_string (snd kv).

(** What a query string shows of a parameter: its key and the string
    form of its value. *)
Definition shown (kv : string * value) : string * string :=
  (fst kv, to_string (snd kv)).

Definition no_eq (s : string) : bool :=
  all_chars (fun c => negb (Ascii.eqb c "=")) s.

(** Undoing the escape of the first code unit of an encoded string. *)
Definition hex_value (c : ascii) : Z :=
  if in_range "0" "9" c then code c - 48 else code c - 55.

Definition decode_first (s : string) : option (ascii * string) :=
  match s with
  | EmptyString => None
  | String "%" (String h1 (String h2 rest)) =>
      let b := 16 * hex_value h1 + hex_value h2 in
      if b <? 128 then Some (ascii_of_N (Z.to_N b), rest)
      else
        match rest with
        | String "%" (String h3 (String h4 rest')) =>
            let b' := 16 * hex_value h3 + hex_value h4 in
            Some (ascii_of_N (Z.to_N ((b - 192) * 64 + (b' - 128))), rest')
        | _ => None
        end
  | String c rest => Some (c, rest)
  end.

(** * Properties *)

(** ** Strings *)

Lemma append_assoc (a b c : string) : (a ++ b) ++ c = a ++ b ++ c.
Proof.
  induction a as [|x a IH]; simpl; [reflexivity | now rewrite IH].
Qed.


(** ** The built-ins on sample inputs *)

Example parseInt_digits : parseInt (VStr " 8989px") = Normal (Num 8989).
Proof. reflexivity. Qed.

Example parseInt_hex : parseInt (VStr "-0x1F") = Normal (Num (-31)).
Proof. reflexivity. Qed.

Example parseInt_letters : parseInt (VStr "abc") = Normal NaN.
Proof. reflexivity. Qed.

Example parseInt_object : parseInt (VObj []) = Normal NaN.
Proof. reflexivity. Qed.

Example encode_sample :
  encodeURIComponent "a b&c=d/~" = "a%20b%26c%3Dd%2F~".
Proof. reflexivity. Qed.

Example base64_sample : buffer_base64 "admin:secret" = "YWRtaW46c2VjcmV0".
Proof. reflexivity. Qed.

Example base64_padding :
  buffer_base64 "a:b" = "YTpi" /\ buffer_base64 "ab:c" = "YWI6Yw=="
  /\ buffer_base64 "a:" = "YTo=".
Proof. repeat split. Qed.

Example construct_minimal :
  constructor (minimal (VStr "localhost") (VStr good_key))
  = Normal (local_client good_key).
Proof. reflexivity. Qed.

(** ** The API key check *)

Lemma matches_here_length (n : nat) (s : string) :
  matches_here n s = true -> (n <= String.length s)%nat.
Proof.
  revert s; induction n as [|n IH]; intros s H; simpl; [lia|].
  destruct s as [|c s]; simpl in *; [discriminate|].
  apply andb_true_iff in H as [_ H]. apply IH in H. lia.
Qed.

Lemma search_from_short (s : string) (i : Z) :
  (String.length s < 32)%nat -> search_from i s = -1.
Proof.
  revert i; induction s as [|c s IH]; intros i Hlen.
  - reflexivity.
  - cbn [search_from].
    destruct (matches_here 32 (String c s)) eqn:E.
    + apply matches_here_length in E. lia.
    + apply IH. simpl in Hlen. lia.
Qed.

Lemma search_from_lower_alnum (s : string) (i : Z) :
  all_chars lower_alnum s = true -> search_from i s = -1.
Proof.
  revert i; induction s as [|c s IH]; intros i H.
  - reflexivity.
  - simpl in H. apply andb_true_iff in H as [Hc Hs].
    cbn [search_from].
    replace (matches_here 32 (String c s)) with false.
    + now apply IH.
    + cbn [matches_here]. unfold lower_alnum in Hc.
      apply negb_true_iff in Hc. now rewrite Hc.
Qed.

(** The search finds something only in a key that holds a run of 32
    code units outside [a-z0-9]. *)
Lemma search_from_found (s : string) (i : Z) :
  search_from i s <> -1 ->
  exists a b, s = a ++ b /\ matches_here 32 b = true.
Proof.
  revert i; induction s as [|c s IH]; intros i H.
  - now cbn in H.
  - cbn [search_from] in H.
    destruct (matches_here 32 (String c s)) eqn:E.
    + now exists "", (String c s).
    + destruct (IH _ H) as (a & b & -> & Hb).
      now exists (String c a), b.
Qed.

(** Every key made of lower-case letters and digits is accepted, whatever
    its length, when the host name is a non-empty string. *)
Lemma lower_alnum_key_accepted (host key : string) :
  host <> "" ->
  all_chars lower_alnum key = true ->
  exists c, constructor (minimal (VStr host) (VStr key)) = Normal c
            /\ apiKey c = key.
Proof.
  intros Hh Hk. unfold constructor, minimal; simpl.
  apply String.eqb_neq in Hh. rewrite Hh. simpl.
  unfold search_invalid. rewrite (search_from_lower_alnum _ _ Hk). simpl.
  eexists; split; reflexivity.
Qed.

(** Every key shorter than 32 code units is accepted, whatever it holds. *)
Lemma short_key_accepted (host key : string) :
  host <> "" ->
  (String.length key < 32)%nat ->
  exists c, constructor (minimal (VStr host) (VStr key)) = Normal c
            /\ apiKey c = key.
Proof.
  intros Hh Hk. unfold constructor, minimal; simpl.
  apply String.eqb_neq in Hh. rewrite Hh. simpl.
  unfold search_invalid. rewrite (search_from_short _ _ Hk). simpl.
  eexists; split; reflexivity.
Qed.

(** C1. The key check of the constructor searches for 32 consecutive code
    units outside [a-z0-9]; a key that holds one upper-case letter, or one
    symbol, among lower-case letters and digits is therefore accepted and
    construction succeeds, where the specification asks for a failure. *)
Theorem apiKey_with_invalid_character_accepted :
  constructor (minimal (VStr "localhost") (VStr "A1b2c3d4e5f6a7b8c9d0e1f2a3b4c5d6"))
  = Normal (local_client "A1b2c3d4e5f6a7b8c9d0e1f2a3b4c5d6")
  /\ constructor (minimal (VStr "localhost") (VStr "a1b2c3d4-5f6a7b8c9d0e1f2a3b4c5d6"))
     = Normal (local_client "a1b2c3d4-5f6a7b8c9d0e1f2a3b4c5d6")
  /\ constructor (minimal (VStr "localhost") (VStr good_key))
     = Normal (local_client good_key).
Proof. repeat split. Qed.

(** The check is live: a key of 32 code units outside [a-z0-9] is refused. *)
Example key_of_32_invalid_rejected :
  constructor (minimal (VStr "localhost") (VStr "ABCDEFGHIJKLMNOPQRSTUVWXYZ-_+=!*"))
  = Throw (UserTypeError "API Key is an invalid").
Proof. reflexivity. Qed.

(** ** What a successful construction stores *)

Lemma ToString_converts (v : value) :
  stringifiable v = true -> ToString v = Normal (to_string v).
Proof. unfold ToString. now intros ->. Qed.

Lemma ToString_raises (v : value) :
  stringifiable v = false -> ToString v = Throw NativeTypeError.
Proof. unfold ToString. now intros ->. Qed.

Lemma ToString_inv (v : value) (s : string) :
  ToString v = Normal s -> stringifiable v = true /\ s = to_string v.
Proof.
  unfold ToString. destruct (stringifiable v); [|discriminate].
  now intros [= <-].
Qed.

Lemma falsy_stringifiable (v : value) :
  truthy v = false -> stringifiable v = true.
Proof. destruct v; try reflexivity. discriminate. Qed.

(** The constructor as the sequence of its validation steps. *)
Lemma constructor_steps (o : Options) :
  constructor o =
  if negb (truthy (o_hostname o)) then Throw (UserTypeError "Hostname is empty")
  else
    let* h := call_replace (o_hostname o) in
    let* p := port_step (or_else (o_port o) (VNum (Num 8989))) in
    let* '(k, found) := call_search (o_apiKey o) in
    if negb (found =? -1) then Throw (UserTypeError "API Key is an invalid")
    else
      let* u := urlBase_step (o_urlBase o) in
      finish o h p k u.
Proof. reflexivity. Qed.

(** The port step: a number is kept, anything else is parsed, and the
    step raises exactly when the conversion of the port to a string
    does. *)
Lemma port_step_cases (v : value) :
  truthy v = true ->
  (stringifiable v = true /\ exists n, port_step v = Normal (VNum n))
  \/ (stringifiable v = false
      /\ port_step v = Throw (UserTypeError "Port is not a number")).
Proof.
  intros Ht. unfold port_step, parseInt, ToString. rewrite Ht.
  destruct v as [| | |n|s|ps]; cbn; try (left; split; eauto; fail);
    try discriminate.
  destruct (has_own "toString" ps); cbn; [right | left]; eauto.
Qed.

Lemma port_default_truthy (v : value) :
  truthy (or_else v (VNum (Num 8989))) = true.
Proof. unfold or_else. now destruct (truthy v) eqn:E. Qed.

Lemma port_default_stringifiable (v : value) :
  stringifiable (or_else v (VNum (Num 8989))) = stringifiable v.
Proof.
  unfold or_else. destruct (truthy v) eqn:E; [reflexivity|].
  now rewrite (falsy_stringifiable v E).
Qed.

Lemma port_step_number (v p : value) :
  port_step (or_else v (VNum (Num 8989))) = Normal p ->
  stringifiable v = true /\ exists n, p = VNum n.
Proof.
  intros H.
  destruct (port_step_cases _ (port_default_truthy v))
    as [(Hs & n & E) | (_ & E)]; rewrite E in H; [|discriminate].
  injection H as <-. rewrite port_default_stringifiable in Hs. eauto.
Qed.

Lemma urlBase_step_result (v u : value) :
  urlBase_step v = Normal u ->
  stringifiable u = true
  /\ (truthy v = false /\ u = v
      \/ exists s, v = VStr s /\ s <> ""
                   /\ u = VStr (if String.eqb (charAt0 s) "/" then s
                                else "/" ++ s)).
Proof.
  unfold urlBase_step. destruct (truthy v) eqn:Ht.
  - destruct v as [| | | |s|]; cbn [call_charAt0 bindC]; try discriminate.
    assert (Hs : s <> "") by (intros ->; discriminate).
    destruct (String.eqb (charAt0 s) "/") eqn:E; cbn; intros [= <-];
      (split; [reflexivity | right; exists s; rewrite E; auto]).
  - intros [= <-]. split; [now apply falsy_stringifiable | now left].
Qed.

Lemma finish_converts (o : Options) (h : string) (p : value) (k : string)
      (u : value) :
  stringifiable p = true -> stringifiable u = true ->
  finish o h p k u =
  Normal {|
    hostname := h;
    port := p;
    apiKey := k;
    urlBase := u;
    ssl := or_else (o_ssl o) (VBool false);
    username := or_else (o_username o) VNull;
    password := or_else (o_password o) VNull;
    auth := truthy (or_else (o_username o) VNull)
            && truthy (or_else (o_password o) VNull);
    serverApi :=
      ("http" ++ (if negb (is_false (or_else (o_ssl o) (VBool false)))
                  then "s" else "")
       ++ "://" ++ h ++ ":" ++ to_string p)
      ++ (if truthy u then to_string u else "") ++ "/api/"
  |}.
Proof.
  intros Hp Hu. unfold finish, concat_string.
  rewrite (ToString_converts p Hp). cbn [bindC].
  destruct (truthy u).
  - rewrite (ToString_converts u Hu). cbn [bindC]. do 2 f_equal.
    destruct (negb (is_false (or_else (o_ssl o) (VBool false))));
      simpl; now rewrite ?append_assoc.
  - cbn [bindC]. do 2 f_equal.
    destruct (negb (is_false (or_else (o_ssl o) (VBool false))));
      simpl; now rewrite ?append_assoc.
Qed.

Lemma constructor_inv (o : Options) (c : Client) :
  constructor o = Normal c ->
  exists h k p u,
    o_hostname o = VStr h /\ h <> ""
    /\ o_apiKey o = VStr k /\ search_invalid k = -1
    /\ port_step (or_else (o_port o) (VNum (Num 8989))) = Normal p
    /\ urlBase_step (o_urlBase o) = Normal u
    /\ hostname c = replace_scheme h
    /\ port c = p
    /\ apiKey c = k
    /\ urlBase c = u
    /\ ssl c = or_else (o_ssl o) (VBool false)
    /\ username c = or_else (o_username o) VNull
    /\ password c = or_else (o_password o) VNull
    /\ auth c = truthy (username c) && truthy (password c)
    /\ serverApi c =
         ("http" ++ (if negb (is_false (ssl c)) then "s" else "") ++ "://"
          ++ hostname c ++ ":" ++ to_string p)
         ++ (if truthy u then to_string u else "") ++ "/api/".
Proof.
  intros H. rewrite constructor_steps in H.
  destruct (truthy (o_hostname o)) eqn:Hh; cbn [negb] in H; [|discriminate].
  destruct (o_hostname o) as [| | | |h|] eqn:Eh; cbn [call_replace bindC] in H;
    try discriminate.
  destruct (port_step _) as [p|] eqn:Ep; cbn [bindC] in H; [|discriminate].
  destruct (o_apiKey o) as [| | | |k|] eqn:Ek; cbn [call_search bindC] in H;
    try discriminate.
  destruct (search_invalid k =? -1) eqn:Es; cbn [negb] in H; [|discriminate].
  destruct (urlBase_step _) as [u|] eqn:Eu; cbn [bindC] in H; [|discriminate].
  destruct (port_step_number _ _ Ep) as (_ & n & ->).
  destruct (urlBase_step_result _ _ Eu) as (Hu & _).
  rewrite (finish_converts o (replace_scheme h) (VNum n) k u eq_refl Hu) in H.
  injection H as <-. cbn [hostname port apiKey urlBase ssl username password
                          auth serverApi].
  exists h, k, (VNum n), u. repeat split; try reflexivity.
  - cbn in Hh. intros ->. discriminate.
  - now apply Z.eqb_eq.
Qed.

(** ** The base URL *)





Example construct_tls : constructor tls_options = Normal tls_client.
Proof. reflexivity. Qed.


(** ** The port *)

(** A port that is already a (non-zero) number is kept; anything else
    goes through [parseInt]; a missing port is 8989. *)
Lemma port_kept_or_parsed (o : Options) (c : Client) :
  constructor o = Normal c ->
  match or_else (o_port o) (VNum (Num 8989)) with
  | VNum n => port c = VNum n
  | v => exists n, parseInt v = Normal n /\ port c = VNum n
  end.
Proof.
  intros H.
  destruct (constructor_inv _ _ H)
    as (h & k & p & u & _ & _ & _ & _ & Ep & _ & _ & Hport & _).
  rewrite Hport. clear H Hport.
  destruct (port_step_number _ _ Ep) as (Hs & n & ->).
  rewrite <- port_default_stringifiable in Hs.
  unfold port_step in Ep. rewrite port_default_truthy in Ep.
  unfold parseInt in *. rewrite (ToString_converts _ Hs) in *.
  destruct (or_else (o_port o) (VNum (Num 8989))) as [| | |m|s|ps];
    cbn in Ep; injection Ep as <-; try reflexivity;
    (eexists; split;
     [unfold parseInt; rewrite (ToString_converts _ Hs); reflexivity
     | reflexivity]).
Qed.

Lemma urlBase_step_not_user_error (v : value) (msg : string) :
  urlBase_step v <> Throw (UserTypeError msg).
Proof.
  unfold urlBase_step. destruct (truthy v); [|discriminate].
  destruct v as [| | | |u|]; simpl; try discriminate.
  destruct (negb (String.eqb (charAt0 u) "/")); discriminate.
Qed.

Lemma finish_not_user_error (o : Options) (h : string) (p : value)
      (k : string) (u : value) (msg : string) :
  finish o h p k u <> Throw (UserTypeError msg).
Proof.
  unfold finish, concat_string, ToString.
  destruct (stringifiable p); cbn [bindC]; [|discriminate].
  destruct (truthy u); cbn [bindC]; [|discriminate].
  destruct (stringifiable u); discriminate.
Qed.

(** The port error is raised exactly when the host name is accepted and
    the port is an object whose conversion to a string raises: that is
    the only way [parseInt] raises.  An unparsable string never gets
    there. *)
Lemma port_error_iff (o : Options) :
  constructor o = Throw (UserTypeError "Port is not a number")
  <-> ((exists h, o_hostname o = VStr h /\ h <> "")
       /\ stringifiable (o_port o) = false).
Proof.
  rewrite constructor_steps. split.
  - destruct (truthy (o_hostname o)) eqn:Hh; cbn [negb]; [|discriminate].
    destruct (o_hostname o) as [| | | |h|]; cbn [call_replace bindC];
      try discriminate.
    intros H. split; [exists h; split; [reflexivity | intros ->; discriminate]|].
    destruct (port_step_cases _ (port_default_truthy (o_port o)))
      as [(_ & n & E) | (Hs & _)];
      [|now rewrite port_default_stringifiable in Hs].
    exfalso. rewrite E in H. cbn [bindC] in H.
    destruct (o_apiKey o) as [| | | |k|]; cbn [call_search bindC] in H;
      try discriminate.
    destruct (search_invalid k =? -1); cbn [negb] in H; [|discriminate].
    destruct (urlBase_step (o_urlBase o)) as [u|t] eqn:Eu; cbn [bindC] in H.
    + now apply finish_not_user_error in H.
    + injection H as ->. now apply urlBase_step_not_user_error in Eu.
  - intros ((h & -> & Hh) & Hs). cbn [truthy].
    apply String.eqb_neq in Hh. rewrite Hh. cbn [negb call_replace bindC].
    destruct (port_step_cases _ (port_default_truthy (o_port o)))
      as [(Hs' & _) | (_ & ->)]; [|reflexivity].
    rewrite port_default_stringifiable in Hs'. congruence.
Qed.

(** A port object with an own [toString] property: the one input on which
    the port error is raised. *)
Example port_object_rejected :
  constructor (with_port (minimal (VStr "localhost") (VStr good_key))
                 (VObj [("toString", VNull)]))
  = Throw (UserTypeError "Port is not a number").
Proof. reflexivity. Qed.

(** C5. A port that is not a number is parsed from its string form, but a
    failed parse does not fail the construction: [parseInt] answers NaN
    instead of raising, so [port: 'abc'] yields a client whose port is NaN
    and whose base URL is [http://localhost:NaN/api/]. *)
Theorem unparsable_port_accepted :
  constructor (with_port (minimal (VStr "localhost") (VStr good_key)) (VStr "abc"))
  = Normal {|
      hostname := "localhost";
      port := VNum NaN;
      apiKey := good_key;
      urlBase := VUndefined;
      ssl := VBool false;
      username := VNull;
      password := VNull;
      auth := false;
      serverApi := "http://localhost:NaN/api/"
    |}
  /\ constructor (with_port (minimal (VStr "localhost") (VStr good_key)) (VStr "8080"))
     = Normal {|
         hostname := "localhost";
         port := VNum (Num 8080);
         apiKey := good_key;
         urlBase := VUndefined;
         ssl := VBool false;
         username := VNull;
         password := VNull;
         auth := false;
         serverApi := "http://localhost:8080/api/"
       |}.
Proof. repeat split. Qed.

(** ** The host name *)




Lemma strip_scheme_http (s : string) : strip_scheme ("http://" ++ s) = s.
Proof. reflexivity. Qed.

Lemma strip_scheme_https (s : string) : strip_scheme ("https://" ++ s) = s.
Proof. reflexivity. Qed.




(** ** The query string, when it exists *)

Lemma query_item_cases (json : list (string * value)) (key : string) :
  query_item json key =
  if is_null (lookup key json) || stringifiable (lookup key json)
  then Normal (item_of json key)
  else Throw NativeTypeError.
Proof.
  unfold query_item, item_of, ToString.
  destruct (is_null (lookup key json)); cbn [negb orb]; [reflexivity|].
  now destruct (stringifiable (lookup key json)).
Qed.

Lemma map_query_items (json : list (string * value)) (ks : list string) :
  map_c (query_item json) ks =
  if forallb (fun key => is_null (lookup key json)
                         || stringifiable (lookup key json)) ks
  then Normal (map (item_of json) ks)
  else Throw NativeTypeError.
Proof.
  induction ks as [|k ks IH]; [reflexivity|].
  cbn [map_c forallb map]. rewrite query_item_cases, IH.
  destruct (is_null (lookup k json) || stringifiable (lookup k json));
    cbn [bindC andb]; [|reflexivity].
  now destruct (forallb _ ks).
Qed.

Lemma join_item_of (json : list (string * value)) (key : string) :
  join_item (item_of json key) =
  Normal (if is_null (lookup key json) then ""
          else encodeURIComponent key ++ "="
               ++ encodeURIComponent (to_string (lookup key json))).
Proof. unfold item_of. now destruct (is_null (lookup key json)). Qed.

Lemma join_items (json : list (string * value)) (ks : list string) :
  join "&" (map (item_of json) ks) =
  Normal (String.concat "&"
            (map (fun key =>
                    if is_null (lookup key json) then ""
                    else encodeURIComponent key ++ "="
                         ++ encodeURIComponent (to_string (lookup key json)))
                 ks)).
Proof.
  induction ks as [|k [|k' ks] IH]; [reflexivity | apply join_item_of |].
  change (join "&" (map (item_of json) (k :: k' :: ks)))
    with (let* first := join_item (item_of json k) in
          let* others := join "&" (map (item_of json) (k' :: ks)) in
          Normal (first ++ "&" ++ others)).
  now rewrite join_item_of, IH.
Qed.

(** [jsonToQueryString] returns the text of the query when every value
    can be converted, and raises otherwise. *)
Lemma jsonToQueryString_cases (json : list (string * value)) :
  jsonToQueryString json =
  if query_ok json then Normal (query_text json) else Throw NativeTypeError.
Proof.
  unfold jsonToQueryString, query_ok, query_text.
  rewrite map_query_items.
  destruct (forallb _ (keys json)); cbn [bindC]; [|reflexivity].
  now rewrite join_items.
Qed.

(** ** One call of a verb *)

Section Calls.

Variable rp : list Request -> Request -> transport_result.


(** [_request] raises, before anything is sent, when a conversion to a
    string raises, and otherwise hands one request to the transport and
    settles on its answer. *)
Lemma _request_run (this : Client) (a : Actions) (w : world) :
  _request rp this a w =
  if request_ok this (a_method a) (relativeUrl a) (parameters a)
  then let req := request_of this (a_method a) (relativeUrl a) (parameters a) in
       (Normal (outcome (rp (sent w) req)), after w req (rp (sent w) req))
  else (Throw NativeTypeError, w).
Proof.
  unfold request_ok, sendable, _request, request_of, bind, lift, ret, rp_call,
    concat_string, ToString.
  destruct (stringifiable (relativeUrl a)); cbn [bindC andb]; [|reflexivity].
  destruct (truthy (parameters a) && method_eqb (a_method a) GET).
  - rewrite jsonToQueryString_cases.
    destruct (query_ok (own_properties (parameters a))); cbn [andb];
      [|reflexivity].
    destruct (auth this).
    + destruct (stringifiable (username this)); cbn [bindC andb];
        [|reflexivity].
      destruct (stringifiable (password this)); cbn [bindC]; [|reflexivity].
      cbv zeta. cbn [sent console].
      match goal with
      | |- context [rp (sent w) ?r] => destruct (rp (sent w) r)
      end; reflexivity.
    + cbv zeta. cbn [sent console].
      match goal with
      | |- context [rp (sent w) ?r] => destruct (rp (sent w) r)
      end; reflexivity.
  - cbn [andb]. destruct (auth this).
    + destruct (stringifiable (username this)); cbn [bindC andb];
        [|reflexivity].
      destruct (stringifiable (password this)); cbn [bindC]; [|reflexivity].
      cbv zeta. cbn [sent console].
      match goal with
      | |- context [rp (sent w) ?r] => destruct (rp (sent w) r)
      end; reflexivity.
    + cbv zeta. cbn [sent console].
      match goal with
      | |- context [rp (sent w) ?r] => destruct (rp (sent w) r)
      end; reflexivity.
Qed.

(** The two precondition checks, shared by the four verbs. *)
Lemma verb_unfold (m : method) (this : Client) (rel ps : value) :
  verb rp m this rel ps =
  if is_undefined rel
  then throw (UserTypeError "Relative URL is not set")
  else if negb (String.eqb (typeof (default ps (VObj []))) "object")
  then throw (UserTypeError "Parameters must be type object")
  else
    p <- _request rp this {| relativeUrl := rel; a_method := m;
                             parameters := default ps (VObj []) |} ;;
    ret (then_ p (fun data => data)).
Proof. now destruct m. Qed.

Lemma then_id (p : settled) : then_ p (fun data => data) = p.
Proof. now destruct p. Qed.

(** A verb in one equation: the two checks, the conversions, the
    request. *)
Lemma verb_run (m : method) (this : Client) (rel ps : value) (w : world) :
  verb rp m this rel ps w =
  if is_undefined rel
  then (Throw (UserTypeError "Relative URL is not set"), w)
  else if negb (String.eqb (typeof (default ps (VObj []))) "object")
  then (Throw (UserTypeError "Parameters must be type object"), w)
  else if request_ok this m rel (default ps (VObj []))
  then let req := request_of this m rel (default ps (VObj [])) in
       (Normal (outcome (rp (sent w) req)), after w req (rp (sent w) req))
  else (Throw NativeTypeError, w).
Proof.
  rewrite verb_unfold.
  destruct (is_undefined rel); [reflexivity|].
  destruct (negb (String.eqb (typeof (default ps (VObj []))) "object"));
    [reflexivity|].
  unfold bind. rewrite _request_run. cbn [relativeUrl a_method parameters].
  destruct (request_ok this m rel (default ps (VObj []))); [|reflexivity].
  cbv zeta. unfold ret. now rewrite then_id.
Qed.

(** A verb that returns a promise passed both checks, converted what it
    had to convert, and sent the request of the call. *)
Lemma verb_returned (m : method) (this : Client) (rel ps : value)
      (w w' : world) (p : settled) :
  verb rp m this rel ps w = (Normal p, w') ->
  rel <> VUndefined
  /\ typeof (default ps (VObj [])) = "object"
  /\ request_ok this m rel (default ps (VObj [])) = true
  /\ p = outcome (rp (sent w) (request_of this m rel (default ps (VObj []))))
  /\ w' = after w (request_of this m rel (default ps (VObj [])))
            (rp (sent w) (request_of this m rel (default ps (VObj [])))).
Proof.
  rewrite verb_run.
  destruct (is_undefined rel) eqn:Hrel; [discriminate|].
  destruct (String.eqb (typeof (default ps (VObj []))) "object") eqn:Hps;
    cbn [negb]; [|discriminate].
  destruct (request_ok this m rel (default ps (VObj []))); [|discriminate].
  cbv zeta. intros [= <- <-].
  split; [destruct rel; simpl in Hrel; congruence|].
  split; [now apply String.eqb_eq|]. auto.
Qed.

(** A verb that passes the checks and converts its arguments sends the
    request of the call, in any world. *)
Lemma verb_dispatches (m : method) (this : Client) (rel ps : value) (w : world) :
  is_undefined rel = false ->
  typeof (default ps (VObj [])) = "object" ->
  request_ok this m rel (default ps (VObj [])) = true ->
  verb rp m this rel ps w
  = (Normal (outcome (rp (sent w) (request_of this m rel (default ps (VObj []))))),
     after w (request_of this m rel (default ps (VObj [])))
       (rp (sent w) (request_of this m rel (default ps (VObj []))))).
Proof.
  intros Hrel Hps Hok. rewrite verb_run, Hrel, Hps, String.eqb_refl, Hok.
  reflexivity.
Qed.


End Calls.

Lemma is_undefined_true (v : value) : is_undefined v = true <-> v = VUndefined.
Proof. destruct v; simpl; split; congruence. Qed.

Lemma is_undefined_false (v : value) : is_undefined v = false <-> v <> VUndefined.
Proof. destruct v; simpl; split; congruence. Qed.

Lemma default_defined (v d : value) : v <> VUndefined -> default v d = v.
Proof. intros H. unfold default. apply is_undefined_false in H. now rewrite H. Qed.

(** ** Transport failures *)

(** When the failure carries a response with a body, the call resolves:
    to the body when its [error] is "Unauthorized", to the failure
    otherwise. *)
Lemma on_failure_with_body (e response body error : value) :
  prop e "response" = Normal response ->
  prop response "body" = Normal body ->
  prop body "error" = Normal error ->
  settle (on_failure e)
  = Fulfilled (if is_string error "Unauthorized" then body else e).
Proof.
  intros He Hr Hb. unfold on_failure.
  rewrite He; cbn [bindC]. rewrite Hr; cbn [bindC]. rewrite Hb; cbn [bindC].
  destruct (is_string error "Unauthorized") eqn:E.
  - destruct error as [| | | |s|]; try discriminate.
    apply String.eqb_eq in E. now subst.
  - now rewrite andb_false_r.
Qed.

Lemma prop_throws (v : value) (name : string) :
  nullish v = true -> prop v name = Throw NativeTypeError.
Proof. destruct v; cbn; intros H; congruence. Qed.

Lemma prop_total (v : value) (name : string) :
  nullish v = false -> exists x, prop v name = Normal x.
Proof. destruct v; cbn; intros H; try discriminate; eauto. Qed.

(** The failure handler itself raises, and the promise is rejected, when
    the failure has no response or the response has no body. *)
Lemma on_failure_without_body (e : value) :
  (nullish e = true
   \/ (exists response, prop e "response" = Normal response
                        /\ (nullish response = true
                            \/ exists body, prop response "body" = Normal body
                                            /\ nullish body = true))) ->
  settle (on_failure e) = Rejected NativeTypeError.
Proof.
  unfold on_failure.
  intros [H | (r & Hr & [H | (b & Hb & H)])].
  - now rewrite (prop_throws _ _ H).
  - rewrite Hr; simpl. now rewrite (prop_throws _ _ H).
  - rewrite Hr; simpl. rewrite Hb; simpl. now rewrite (prop_throws _ _ H).
Qed.

(** A failure with a body that is not the "Unauthorized" one resolves to
    the failure object. *)
Example not_found_resolves :
  settle (on_failure not_found) = Fulfilled not_found.
Proof. reflexivity. Qed.

Lemma request_ok_plain (this : Client) (m : method) (rel : string) :
  sendable this = true ->
  request_ok this m (VStr rel) (default VUndefined (VObj [])) = true.
Proof. intros H. unfold request_ok. rewrite H. now destruct m. Qed.

(** C2. A transport failure that carries no response (a refused
    connection), or a response without a body, makes the failure handler
    read a property on [undefined]; the handler raises and the promise of
    every verb is rejected, where the specification asks for a call that
    resolves to the failure object.  A failure with an "Unauthorized"
    body does resolve to that body.  (The client is any client whose
    credentials, if it has some, can be converted to strings, so that the
    request is sent at all.) *)
Theorem failure_without_response_rejects
        (m : method) (this : Client) (w : world) :
  sendable this = true ->
  fst (verb (fun _ _ => Failure connection_refused) m this
            (VStr "series") VUndefined w)
  = Normal (Rejected NativeTypeError)
  /\ fst (verb (fun _ _ => Failure bad_gateway) m this
               (VStr "series") VUndefined w)
     = Normal (Rejected NativeTypeError)
  /\ fst (verb (fun _ _ => Failure unauthorized) m this
               (VStr "series") VUndefined w)
     = Normal (Fulfilled unauthorized_body).
Proof.
  intros Hs.
  pose proof (request_ok_plain this m "series" Hs) as Hok.
  split; [|split];
    rewrite (verb_dispatches _ m this (VStr "series") VUndefined w
               eq_refl eq_refl Hok);
    reflexivity.
Qed.

Lemma failure_without_response_rejects_witness :
  fst (get (fun _ _ => Failure connection_refused) auth_client
           (VStr "series") VUndefined quiet)
  = Normal (Rejected NativeTypeError).
Proof.
  apply (proj1 (failure_without_response_rejects GET auth_client quiet
                  eq_refl)).
Defined.

(** ** Headers *)





(** Only one of the two credentials: no [Authorization] header. *)
Example user_without_password :
  constructor (with_credentials (minimal (VStr "localhost") (VStr good_key))
                 (VStr "admin") VUndefined)
  = Normal {|
      hostname := "localhost";
      port := VNum (Num 8989);
      apiKey := good_key;
      urlBase := VUndefined;
      ssl := VBool false;
      username := VStr "admin";
      password := VNull;
      auth := false;
      serverApi := "http://localhost:8989/api/"
    |}.
Proof. reflexivity. Qed.

(** ** Preconditions of the verbs *)




Lemma request_ok_null_parameters (this : Client) (m : method) (rel : value) :
  sendable this = true -> stringifiable rel = true ->
  request_ok this m rel (default VNull (VObj [])) = true.
Proof. intros H Hrel. unfold request_ok. now rewrite H, Hrel. Qed.

Lemma request_ok_null_url (this : Client) (m : method) :
  sendable this = true ->
  request_ok this m VNull (default VUndefined (VObj [])) = true.
Proof. intros H. unfold request_ok. rewrite H. now destruct m. Qed.

(** C10. The checks of the verbs are a strict comparison with [undefined]
    and a [typeof] test: a [null] relative URL is not rejected and the
    request is built and sent (its URL ends in "null"); [null] parameters
    pass the object check and the request is sent too; the checks reject,
    with their two errors, exactly an [undefined] relative URL and
    parameters with a [typeof] other than "object".  (A call that passes
    the checks can still raise before anything is sent, with the engine's
    TypeError, when a value it has to convert to a string cannot be
    converted; the last part states exactly when a verb raises at all.
    The client is any client whose credentials, if it has some, can be
    converted.) *)
Theorem null_arguments_pass_the_checks
        (rp : list Request -> Request -> transport_result)
        (m : method) (this : Client) (w : world) :
  sendable this = true ->
  (exists req,
      verb rp m this VNull VUndefined w
      = (Normal (outcome (rp (sent w) req)), after w req (rp (sent w) req))
      /\ url req = serverApi this ++ "null"
                   ++ (if method_eqb m GET then "?" else ""))
  /\ (forall rel, rel <> VUndefined -> stringifiable rel = true ->
      exists req,
        verb rp m this rel VNull w
        = (Normal (outcome (rp (sent w) req)), after w req (rp (sent w) req))
        /\ url req = serverApi this ++ to_string rel)
  /\ (forall rel ps,
      (exists msg, fst (verb rp m this rel ps w) = Throw (UserTypeError msg))
      <-> (rel = VUndefined
           \/ (ps <> VUndefined /\ typeof ps <> "object")))
  /\ (forall rel ps,
      (exists t, fst (verb rp m this rel ps w) = Throw t)
      <-> (rel = VUndefined
           \/ (ps <> VUndefined /\ typeof ps <> "object")
           \/ request_ok this m rel (default ps (VObj [])) = false)).
Proof.
  intros Hs.
  assert (Hchecks : forall rel ps,
             (is_undefined rel = true
              \/ String.eqb (typeof (default ps (VObj []))) "object" = false)
             <-> (rel = VUndefined
                  \/ (ps <> VUndefined /\ typeof ps <> "object"))).
  { intros rel ps. rewrite is_undefined_true, String.eqb_neq.
    destruct (is_undefined ps) eqn:Eu.
    - apply is_undefined_true in Eu. subst ps.
      split; [intros [H|H]; [now left | now elim H]
             | intros [H|[H _]]; [now left | now elim H]].
    - apply is_undefined_false in Eu. rewrite (default_defined _ _ Eu).
      split; [intros [H|H]; [now left | right; now split]
             | intros [H|[_ H]]; [now left | now right]]. }
  split; [|split; [|split]].
  - exists (request_of this m VNull (default VUndefined (VObj []))).
    split.
    + apply verb_dispatches; try reflexivity. now apply request_ok_null_url.
    + destruct m; cbn [request_of url]; cbn; now rewrite ?append_assoc.
  - intros rel Hrel Hconv.
    exists (request_of this m rel (default VNull (VObj []))).
    split.
    + apply verb_dispatches; try reflexivity.
      * now apply is_undefined_false.
      * now apply request_ok_null_parameters.
    + reflexivity.
  - intros rel ps. rewrite <- Hchecks, verb_run.
    destruct (is_undefined rel); cbn [fst].
    + split; [now left | eauto].
    + destruct (String.eqb (typeof (default ps (VObj []))) "object");
        cbn [negb fst].
      * split; [|intros [H|H]; discriminate].
        destruct (request_ok this m rel (default ps (VObj [])));
          intros [msg H]; discriminate.
      * split; [now right | eauto].
  - intros rel ps. rewrite <- or_assoc, <- Hchecks, verb_run.
    destruct (is_undefined rel); cbn [fst].
    + split; [now left; left | eauto].
    + destruct (String.eqb (typeof (default ps (VObj []))) "object");
        cbn [negb fst].
      * destruct (request_ok this m rel (default ps (VObj []))); cbn [fst].
        -- split; [intros [t H]; discriminate|].
           intros [[H|H]|H]; discriminate.
        -- split; [now right | eauto].
      * split; [now left; right | eauto].
Qed.

(** ** The query string *)

Lemma lookup_NoDup (ps : list (string * value)) (k : string) (v : value) :
  NoDup (keys ps) -> In (k, v) ps -> lookup k ps = v.
Proof.
  induction ps as [|[k' v'] ps IH]; intros Hnd Hin; [easy|].
  simpl in *. inversion Hnd as [|? ? Hnotin Hnd']; subst.
  destruct Hin as [[= -> ->] | Hin].
  - now rewrite String.eqb_refl.
  - destruct (String.eqb_spec k' k) as [->|_]; [|now apply IH].
    elim Hnotin. unfold keys. now apply (in_map fst _ (k, v)).
Qed.

Lemma null_stringifiable (v : value) :
  is_null v || stringifiable v = stringifiable v.
Proof. now destruct v. Qed.

Lemma query_text_pairs (ps : list (string * value)) :
  NoDup (keys ps) ->
  query_text ps = "?" ++ String.concat "&" (map pair_of ps).
Proof.
  intros Hnd. unfold query_text, keys. rewrite map_map. do 2 f_equal.
  apply map_ext_in. intros [k v] Hin. cbn [fst].
  now rewrite (lookup_NoDup ps k v Hnd Hin).
Qed.

Lemma query_ok_entries (ps : list (string * value)) :
  NoDup (keys ps) ->
  Forall (fun kv => stringifiable (snd kv) = true) ps ->
  query_ok ps = true.
Proof.
  intros Hnd Hall. unfold query_ok, keys.
  apply forallb_forall. intros k Hin.
  apply in_map_iff in Hin as ([k' v] & <- & Hin). cbn [fst].
  rewrite (lookup_NoDup ps k' v Hnd Hin), null_stringifiable.
  rewrite Forall_forall in Hall. exact (Hall _ Hin).
Qed.

Lemma query_ok_inv (ps : list (string * value)) :
  NoDup (keys ps) -> query_ok ps = true ->
  Forall (fun kv => stringifiable (snd kv) = true) ps.
Proof.
  intros Hnd Hok. apply Forall_forall. intros [k v] Hin.
  unfold query_ok in Hok. rewrite forallb_forall in Hok.
  assert (Hk : In k (keys ps)) by (unfold keys; now apply (in_map fst _ (k, v))).
  specialize (Hok k Hk).
  now rewrite (lookup_NoDup ps k v Hnd Hin), null_stringifiable in Hok.
Qed.

Lemma jsonToQueryString_pairs (ps : list (string * value)) :
  NoDup (keys ps) ->
  Forall (fun kv => stringifiable (snd kv) = true) ps ->
  jsonToQueryString ps = Normal ("?" ++ String.concat "&" (map pair_of ps)).
Proof.
  intros Hnd Hall.
  now rewrite jsonToQueryString_cases, (query_ok_entries ps Hnd Hall),
              (query_text_pairs ps Hnd).
Qed.

Example query_id : jsonToQueryString [("id", VNum (Num 5))] = Normal "?id=5".
Proof. reflexivity. Qed.

Example query_encoded :
  jsonToQueryString [("term", VStr "a b&c"); ("monitored", VBool true)]
  = Normal "?term=a%20b%26c&monitored=true".
Proof. reflexivity. Qed.

Example query_with_null :
  jsonToQueryString [("a", VNum (Num 1)); ("b", VNull); ("c", VNum (Num 2))]
  = Normal "?a=1&&c=2".
Proof. reflexivity. Qed.

(** A value that cannot be converted to a string ends the call. *)
Example query_with_unconvertible_value :
  jsonToQueryString [("a", VNum (Num 1)); ("b", VObj [("toString", VNull)])]
  = Throw NativeTypeError.
Proof. reflexivity. Qed.

Lemma request_ok_get (this : Client) (rel : string)
      (ps : list (string * value)) :
  NoDup (keys ps) ->
  Forall (fun kv => stringifiable (snd kv) = true) ps ->
  sendable this = true ->
  request_ok this GET (VStr rel) (default (VObj ps) (VObj [])) = true.
Proof.
  intros Hnd Hall Hs. unfold request_ok, default.
  cbn [is_undefined stringifiable truthy own_properties andb].
  change (method_eqb GET GET) with true. cbv iota.
  now rewrite (query_ok_entries ps Hnd Hall), Hs.
Qed.

(** C3, as the specification states it, fails: the guard of [_request]
    tests the parameters object for truthiness, and an empty object is
    truthy, so a GET with an empty mapping (or with no parameters at all)
    gets a bare [?] appended. *)
Lemma empty_parameters_append_question_mark :
  get answer_empty (local_client good_key) (VStr "series") (VObj []) quiet
  = (Normal (Fulfilled (VObj [])),
     {| sent := [ {| url := "http://localhost:8989/api/series?";
                     headers := [("X-API-KEY", good_key);
                                 ("Accept", "application/json")];
                     strictSSL := None;
                     r_method := "GET";
                     json := VBool true |} ];
        console := [VObj []] |})
  /\ "http://localhost:8989/api/series?"
     <> serverApi (local_client good_key) ++ "series".
Proof. split; [reflexivity | discriminate]. Qed.

(** C3, amended. For every GET call whose parameters are a mapping,
    empty or not, of values that can be converted to strings (every
    scalar can), the target URL is the base URL, the relative path, a [?]
    and the segments of the keys joined with [&]: the segment of a key is
    the URL-encoded key, [=] and the URL-encoded value, and it is empty
    when the value is [null].  The query string is left out only when the
    parameters are [null].  [get("series", {id: 5})] gives [?id=5], and a
    GET with an empty mapping gives a URL that ends in a bare [?].  (The
    client is any client whose credentials, if it has some, can be
    converted to strings.) *)
Theorem get_url (rp : list Request -> Request -> transport_result)
        (this : Client)
        (rel : string) (ps : list (string * value)) (w : world) :
  NoDup (keys ps) ->
  Forall (fun kv => stringifiable (snd kv) = true) ps ->
  sendable this = true ->
  (exists req,
      get rp this (VStr rel) (VObj ps) w
      = (Normal (outcome (rp (sent w) req)), after w req (rp (sent w) req))
      /\ url req = serverApi this ++ rel ++ "?"
                   ++ String.concat "&" (map pair_of ps))
  /\ (exists req,
         get rp this (VStr rel) VNull w
         = (Normal (outcome (rp (sent w) req)), after w req (rp (sent w) req))
         /\ url req = serverApi this ++ rel)
  /\ String.concat "&" (map pair_of [("id", VNum (Num 5))]) = "id=5"
  /\ String.concat "&" (map pair_of []) = ""
  /\ pair_of ("b", VNull) = "".
Proof.
  intros Hnd Hall Hs. split; [|split; [|repeat split]].
  - exists (request_of this GET (VStr rel) (default (VObj ps) (VObj []))).
    split.
    + apply (verb_dispatches rp GET); try reflexivity.
      now apply request_ok_get.
    + cbn [request_of url default is_undefined truthy andb method_eqb
           own_properties to_string].
      change (method_eqb GET GET) with true. cbv iota.
      now rewrite (query_text_pairs ps Hnd), append_assoc.
  - exists (request_of this GET (VStr rel) (default VNull (VObj []))).
    split.
    + apply (verb_dispatches rp GET); try reflexivity.
      now apply request_ok_null_parameters.
    + reflexivity.
Qed.

Lemma get_url_witness :
  exists req,
    get answer_empty (local_client good_key) (VStr "series")
        (VObj [("id", VNum (Num 5))]) quiet
    = (Normal (outcome (answer_empty (sent quiet) req)),
       after quiet req (answer_empty (sent quiet) req))
    /\ url req = "http://localhost:8989/api/" ++ "series" ++ "?" ++ "id=5".
Proof.
  refine (proj1 (get_url answer_empty (local_client good_key) "series"
                   [("id", VNum (Num 5))] quiet _ _ _)).
  - repeat constructor. simpl. tauto.
  - repeat constructor.
  - reflexivity.
Defined.

Lemma all_chars_app (p : ascii -> bool) (a b : string) :
  all_chars p (a ++ b) = all_chars p a && all_chars p b.
Proof.
  induction a as [|c a IH]; simpl; [reflexivity|].
  now rewrite IH, andb_assoc.
Qed.

Lemma encode_unit_no_amp (c : ascii) : no_amp (encode_unit c) = true.
Proof. destruct c as [[] [] [] [] [] [] [] []]; vm_compute; reflexivity. Qed.

Lemma encodeURIComponent_no_amp (s : string) :
  no_amp (encodeURIComponent s) = true.
Proof.
  induction s as [|c s IH]; [reflexivity|].
  pose proof (encode_unit_no_amp c) as Hc.
  unfold no_amp in *. cbn [encodeURIComponent].
  now rewrite all_chars_app, IH, Hc.
Qed.

Lemma pair_of_no_amp (kv : string * value) : no_amp (pair_of kv) = true.
Proof.
  unfold pair_of. destruct (is_null (snd kv)); [reflexivity|].
  unfold no_amp. rewrite !all_chars_app.
  fold (no_amp (encodeURIComponent (fst kv))).
  fold (no_amp (encodeURIComponent (to_string (snd kv)))).
  now rewrite !encodeURIComponent_no_amp.
Qed.

Lemma split_amp_no_amp (s : string) : no_amp s = true -> split_amp s = [s].
Proof.
  induction s as [|c s IH]; [reflexivity|].
  unfold no_amp. simpl. intros H. apply andb_true_iff in H as [Hc Hs].
  apply negb_true_iff in Hc. rewrite Hc. now rewrite (IH Hs).
Qed.

Lemma split_amp_cons (a rest : string) :
  no_amp a = true -> split_amp (a ++ String "&" rest) = a :: split_amp rest.
Proof.
  induction a as [|c a IH]; [reflexivity|].
  unfold no_amp. simpl. intros H. apply andb_true_iff in H as [Hc Ha].
  apply negb_true_iff in Hc. rewrite Hc. now rewrite (IH Ha).
Qed.

Lemma split_amp_concat (segs : list string) :
  segs <> [] ->
  Forall (fun seg => no_amp seg = true) segs ->
  split_amp (String.concat "&" segs) = segs.
Proof.
  induction segs as [|a [|b rest] IH]; intros Hne Hall; [easy| |].
  - inversion Hall; subst. now apply split_amp_no_amp.
  - inversion Hall as [|? ? Ha Hrest]; subst.
    change (String.concat "&" (a :: b :: rest))
      with (a ++ String "&" (String.concat "&" (b :: rest))).
    rewrite (split_amp_cons _ _ Ha). f_equal. now apply IH.
Qed.

Lemma pairs_no_amp (ps : list (string * value)) :
  Forall (fun seg => no_amp seg = true) (map pair_of ps).
Proof.
  apply Forall_forall. intros seg Hin.
  apply in_map_iff in Hin as (kv & <- & _). apply pair_of_no_amp.
Qed.

(** C9. In the query string of a GET call a key whose value is [null]
    contributes no encoded [key=value] pair but keeps its position: the
    string, split at [&], has one segment per key, the segment of the
    [null]-valued key is empty, and the segment of any other key is its
    encoded pair.  (The other values are values that can be converted to
    strings, as every scalar can, and so are the credentials of the
    client if it has some: otherwise no query string is built.) *)
Theorem null_value_leaves_empty_segment
        (rp : list Request -> Request -> transport_result)
        (this : Client) (rel : string)
        (before after_ : list (string * value)) (key : string) (w : world) :
  NoDup (keys (before ++ (key, VNull) :: after_)) ->
  Forall (fun kv => stringifiable (snd kv) = true) (before ++ after_) ->
  sendable this = true ->
  exists req body,
    get rp this (VStr rel) (VObj (before ++ (key, VNull) :: after_)) w
    = (Normal (outcome (rp (sent w) req)), after w req (rp (sent w) req))
    /\ url req = serverApi this ++ rel ++ String "?" body
    /\ split_amp body = (map pair_of before ++ "" :: map pair_of after_)%list
    /\ nth (List.length before) (split_amp body) "-" = ""
    /\ List.length (split_amp body)
       = List.length (before ++ (key, VNull) :: after_)
    /\ (forall k v, In (k, v) (before ++ after_) -> v <> VNull ->
        pair_of (k, v) = encodeURIComponent k ++ "="
                         ++ encodeURIComponent (to_string v)).
Proof.
  intros Hnd Hall Hs.
  set (ps := (before ++ (key, VNull) :: after_)%list) in *.
  assert (Hall' : Forall (fun kv => stringifiable (snd kv) = true) ps).
  { apply Forall_app in Hall as [Hb Ha]. apply Forall_app. split; [exact Hb|].
    constructor; [reflexivity | exact Ha]. }
  assert (Hsplit : split_amp (String.concat "&" (map pair_of ps))
                   = map pair_of ps).
  { apply split_amp_concat; [|apply pairs_no_amp].
    subst ps. now destruct before. }
  exists (request_of this GET (VStr rel) (default (VObj ps) (VObj []))),
         (String.concat "&" (map pair_of ps)).
  split; [|split; [|split; [|split; [|split]]]].
  - apply (verb_dispatches rp GET); try reflexivity.
    now apply request_ok_get.
  - cbn [request_of url default is_undefined truthy andb method_eqb
         own_properties to_string].
    change (method_eqb GET GET) with true. cbv iota.
    now rewrite (query_text_pairs ps Hnd), append_assoc.
  - rewrite Hsplit. subst ps. now rewrite map_app.
  - rewrite Hsplit. subst ps. rewrite map_app, app_nth2;
      rewrite length_map; [|lia].
    now rewrite Nat.sub_diag.
  - rewrite Hsplit. now rewrite length_map.
  - intros k v _ Hv. unfold pair_of. simpl.
    destruct v; try reflexivity. now elim Hv.
Qed.

Lemma null_value_leaves_empty_segment_witness :
  exists req body,
    get answer_empty (local_client good_key) (VStr "series")
        (VObj [("a", VNum (Num 1)); ("b", VNull); ("c", VNum (Num 2))]) quiet
    = (Normal (outcome (answer_empty (sent quiet) req)),
       after quiet req (answer_empty (sent quiet) req))
    /\ url req = "http://localhost:8989/api/" ++ "series" ++ String "?" body
    /\ split_amp body = ["a=1"; ""; "c=2"].
Proof.
  destruct (null_value_leaves_empty_segment answer_empty
              (local_client good_key) "series"
              [("a", VNum (Num 1))] [("c", VNum (Num 2))] "b" quiet)
    as (req & body & E & Hurl & Hsp & _).
  - repeat constructor; simpl; intuition discriminate.
  - repeat constructor.
  - reflexivity.
  - exists req, body. split; [exact E | split; [exact Hurl | exact Hsp]].
Defined.

Lemma null_arguments_pass_the_checks_witness :
  exists req,
    verb answer_empty POST (local_client good_key) (VStr "series") VNull quiet
    = (Normal (outcome (answer_empty (sent quiet) req)),
       after quiet req (answer_empty (sent quiet) req))
    /\ url req = serverApi (local_client good_key) ++ "series".
Proof.
  apply (proj1 (proj2 (null_arguments_pass_the_checks answer_empty POST
                         (local_client good_key) quiet eq_refl))
           (VStr "series")).
  - discriminate.
  - reflexivity.
Defined.

(** * Further properties of the constructor *)

(** With a host name and a key that are strings and a port that can be
    converted, what is left is the key check, the base-path step and the
    assembly of the URL. *)
Lemma constructor_with_strings (o : Options) (h k : string) :
  o_hostname o = VStr h -> h <> "" -> o_apiKey o = VStr k ->
  stringifiable (o_port o) = true ->
  exists n,
    port_step (or_else (o_port o) (VNum (Num 8989))) = Normal (VNum n)
    /\ constructor o =
       if search_invalid k =? -1
       then let* u := urlBase_step (o_urlBase o) in
            finish o (replace_scheme h) (VNum n) k u
       else Throw (UserTypeError "API Key is an invalid").
Proof.
  intros Eh Hh Ek Hp.
  destruct (port_step_cases _ (port_default_truthy (o_port o)))
    as [(_ & n & Ep) | (Hs & _)];
    [|rewrite port_default_stringifiable in Hs; congruence].
  exists n. split; [exact Ep|].
  rewrite constructor_steps, Eh, Ek, Ep. simpl.
  apply String.eqb_neq in Hh. rewrite Hh. simpl.
  now destruct (search_invalid k =? -1).
Qed.

(** *** The key check *)

Lemma matches_here_run (n : nat) (s : string) :
  matches_here n s = true ->
  exists b c, s = b ++ c /\ String.length b = n
              /\ all_chars not_lower_alnum b = true.
Proof.
  revert s; induction n as [|n IH]; intros s H.
  - now exists "", s.
  - destruct s as [|x s]; simpl in H; [discriminate|].
    apply andb_true_iff in H as [Hx Hs].
    destruct (IH s Hs) as (b & c & -> & Hlen & Hall).
    exists (String x b), c. simpl. now rewrite Hlen, Hx, Hall.
Qed.

Lemma run_matches_here (b c : string) :
  all_chars not_lower_alnum b = true ->
  matches_here (String.length b) (b ++ c) = true.
Proof.
  induction b as [|x b IH]; intros H; [reflexivity|].
  simpl in *. apply andb_true_iff in H as [Hx Hb].
  now rewrite Hx, IH.
Qed.

Lemma search_from_lower_bound (s : string) (i : Z) :
  search_from i s = -1 \/ i <= search_from i s.
Proof.
  revert i; induction s as [|x s IH]; intros i; cbn [search_from].
  - destruct (matches_here 32 ""); [right; lia | now left].
  - destruct (matches_here 32 (String x s)); [right; lia|].
    destruct (IH (i + 1)) as [H|H]; [now left | right; lia].
Qed.

Lemma search_from_finds (a rest : string) (i : Z) :
  0 <= i -> matches_here 32 rest = true -> search_from i (a ++ rest) <> -1.
Proof.
  revert i; induction a as [|x a IH]; intros i Hi Hm.
  - cbn [append].
    destruct rest as [|y rest]; cbn [search_from]; rewrite Hm; lia.
  - cbn [append search_from].
    destruct (matches_here 32 (String x (a ++ rest))); [lia|].
    apply IH; [lia | exact Hm].
Qed.

Lemma search_invalid_run (k : string) :
  search_invalid k <> -1 <-> has_invalid_run k.
Proof.
  unfold search_invalid, has_invalid_run. split.
  - intros H. destruct (search_from_found _ _ H) as (a & rest & -> & Hm).
    destruct (matches_here_run _ _ Hm) as (b & c & -> & Hlen & Hall).
    now exists a, b, c.
  - intros (a & b & c & -> & Hlen & Hall).
    apply search_from_finds; [lia|].
    rewrite <- Hlen. now apply run_matches_here.
Qed.

(** X1. With a host name that is a non-empty string and a port that can
    be converted to a string (every port but an object with an own
    [toString] property), the constructor raises the key error exactly
    for the keys that hold 32 consecutive code units outside [a-z0-9],
    whatever the other options are. *)
Theorem key_rejected_iff_invalid_run (o : Options) (h k : string) :
  o_hostname o = VStr h -> h <> "" -> o_apiKey o = VStr k ->
  stringifiable (o_port o) = true ->
  (constructor o = Throw (UserTypeError "API Key is an invalid")
   <-> has_invalid_run k).
Proof.
  intros Eh Hh Ek Hp.
  destruct (constructor_with_strings o h k Eh Hh Ek Hp) as (n & _ & ->).
  rewrite <- search_invalid_run.
  destruct (search_invalid k =? -1) eqn:E.
  - apply Z.eqb_eq in E. split; [|intros H; now elim H].
    intros H. exfalso.
    destruct (urlBase_step (o_urlBase o)) as [u|t] eqn:Eu; cbn [bindC] in H.
    + now apply finish_not_user_error in H.
    + injection H as ->. now apply (urlBase_step_not_user_error _ _ Eu).
  - apply Z.eqb_neq in E. split; [now intros _ | reflexivity].
Qed.

Lemma key_rejected_iff_invalid_run_witness :
  constructor (minimal (VStr "localhost")
                 (VStr "a1b2ABCDEFGHIJKLMNOPQRSTUVWXYZ-_+=!*c3d4"))
  = Throw (UserTypeError "API Key is an invalid").
Proof.
  apply (proj2 (key_rejected_iff_invalid_run
                  (minimal (VStr "localhost")
                     (VStr "a1b2ABCDEFGHIJKLMNOPQRSTUVWXYZ-_+=!*c3d4"))
                  "localhost" "a1b2ABCDEFGHIJKLMNOPQRSTUVWXYZ-_+=!*c3d4"
                  eq_refl ltac:(discriminate) eq_refl eq_refl)).
  exists "a1b2", "ABCDEFGHIJKLMNOPQRSTUVWXYZ-_+=!*", "c3d4".
  repeat split.
Defined.

Lemma urlBase_step_Normal_iff (v : value) :
  (exists u, urlBase_step v = Normal u)
  <-> (truthy v = false \/ exists s, v = VStr s).
Proof.
  unfold urlBase_step. split.
  - intros [u H]. destruct (truthy v); [right | now left].
    destruct v as [| | | |s|]; simpl in H; try discriminate. now exists s.
  - intros [H | [s ->]].
    + rewrite H. eauto.
    + destruct (truthy (VStr s)); [|eauto]. simpl.
      destruct (negb (String.eqb (charAt0 s) "/")); eauto.
Qed.

(** X2. Construction succeeds exactly when the host name is a non-empty
    string, the port can be converted to a string (every port but an
    object with an own [toString] property), the key is a string without
    a run of 32 code units outside [a-z0-9], and the base path is either
    falsy (absent, empty) or a string. *)
Theorem construction_succeeds_iff (o : Options) :
  (exists c, constructor o = Normal c)
  <-> ((exists h, o_hostname o = VStr h /\ h <> "")
       /\ stringifiable (o_port o) = true
       /\ (exists k, o_apiKey o = VStr k /\ ~ has_invalid_run k)
       /\ (truthy (o_urlBase o) = false \/ exists u, o_urlBase o = VStr u)).
Proof.
  split.
  - intros [c H].
    destruct (constructor_inv _ _ H)
      as (h & k & p & u & Eh & Hh & Ek & Hk & Ep & Eu & _).
    split; [now exists h|].
    split; [exact (proj1 (port_step_number _ _ Ep))|]. split.
    + exists k. split; [exact Ek|]. rewrite <- search_invalid_run. tauto.
    + apply urlBase_step_Normal_iff. now exists u.
  - intros ((h & Eh & Hh) & Hp & (k & Ek & Hk) & Hu).
    destruct (constructor_with_strings o h k Eh Hh Ek Hp) as (n & _ & ->).
    rewrite <- search_invalid_run in Hk.
    destruct (Z.eqb_spec (search_invalid k) (-1)) as [_|Hne]; [|tauto].
    apply urlBase_step_Normal_iff in Hu as [u Eu]. rewrite Eu. cbn [bindC].
    destruct (urlBase_step_result _ _ Eu) as (Hconv & _).
    rewrite (finish_converts o _ (VNum n) k u eq_refl Hconv). eauto.
Qed.

Lemma construction_succeeds_iff_witness :
  exists c, constructor tls_options = Normal c.
Proof.
  apply (proj2 (construction_succeeds_iff tls_options)).
  split; [exists "example.com"; split; [reflexivity | discriminate]|].
  split; [reflexivity|].
  split; [|right; now exists "sonarr"].
  exists good_key. split; [reflexivity|].
  intros H. apply search_invalid_run in H. now apply H.
Defined.

(** X3. The constructor uses the host name, the port, the key and the
    base path without a type check, in that order.  A truthy host name
    that is not a string ends the construction with the engine's
    TypeError.  Then a port that cannot be converted to a string (an
    object with an own [toString] property) ends it with the port error.
    Then, the port being convertible, a key that is missing or not a
    string ends it with the engine's TypeError, and so does, after a
    valid key, a truthy base path that is not a string. *)
Theorem non_string_field_raises_native_error (o : Options) :
  (truthy (o_hostname o) = true ->
   (forall h, o_hostname o <> VStr h) ->
   constructor o = Throw NativeTypeError)
  /\ (forall h, o_hostname o = VStr h -> h <> "" ->
      stringifiable (o_port o) = false ->
      constructor o = Throw (UserTypeError "Port is not a number"))
  /\ (forall h, o_hostname o = VStr h -> h <> "" ->
      stringifiable (o_port o) = true ->
      (forall k, o_apiKey o <> VStr k) ->
      constructor o = Throw NativeTypeError)
  /\ (forall h k, o_hostname o = VStr h -> h <> "" ->
      stringifiable (o_port o) = true ->
      o_apiKey o = VStr k -> ~ has_invalid_run k ->
      truthy (o_urlBase o) = true -> (forall u, o_urlBase o <> VStr u) ->
      constructor o = Throw NativeTypeError).
Proof.
  split; [|split; [|split]].
  - intros Ht Hns. rewrite constructor_steps, Ht. simpl.
    destruct (o_hostname o) as [| | | |h|]; try reflexivity.
    now elim (Hns h).
  - intros h Eh Hh Hp. apply port_error_iff. split; [now exists h | exact Hp].
  - intros h Eh Hh Hp Hns. rewrite constructor_steps, Eh. simpl.
    apply String.eqb_neq in Hh. rewrite Hh. simpl.
    destruct (port_step_cases _ (port_default_truthy (o_port o)))
      as [(_ & n & ->) | (Hs & _)];
      [|rewrite port_default_stringifiable in Hs; congruence].
    simpl. destruct (o_apiKey o) as [| | | |k|]; try reflexivity.
    now elim (Hns k).
  - intros h k Eh Hh Hp Ek Hk Ht Hns.
    destruct (constructor_with_strings o h k Eh Hh Ek Hp) as (n & _ & ->).
    rewrite <- search_invalid_run in Hk.
    destruct (Z.eqb_spec (search_invalid k) (-1)) as [_|Hne]; [|tauto].
    unfold urlBase_step. rewrite Ht.
    destruct (o_urlBase o) as [| | | |u|]; try reflexivity.
    now elim (Hns u).
Qed.

Lemma non_string_field_raises_native_error_witness :
  constructor (minimal (VStr "localhost") VUndefined) = Throw NativeTypeError
  /\ constructor (with_port (minimal (VStr "localhost") VUndefined)
                    (VObj [("toString", VNull)]))
     = Throw (UserTypeError "Port is not a number").
Proof.
  split.
  - apply (proj1 (proj2 (proj2 (non_string_field_raises_native_error
                                  (minimal (VStr "localhost") VUndefined))))
             "localhost").
    + reflexivity.
    + discriminate.
    + reflexivity.
    + discriminate.
  - apply (proj1 (proj2 (non_string_field_raises_native_error
                           (with_port (minimal (VStr "localhost") VUndefined)
                              (VObj [("toString", VNull)]))))
             "localhost").
    + reflexivity.
    + discriminate.
    + reflexivity.
Defined.

(** X4. After a successful construction the stored port is always of
    type number; it is 8989 when the port option is falsy (absent, 0, the
    empty string), and a non-zero number given as port is kept as it is. *)
Theorem stored_port_is_a_number (o : Options) (c : Client) :
  constructor o = Normal c ->
  typeof (port c) = "number"
  /\ (truthy (o_port o) = false -> port c = VNum (Num 8989))
  /\ (forall n, o_port o = VNum n -> truthy (VNum n) = true ->
      port c = VNum n).
Proof.
  intros H. pose proof (port_kept_or_parsed o c H) as Hp.
  unfold or_else in Hp. split; [|split].
  - destruct (truthy (o_port o)).
    + destruct (o_port o); try (destruct Hp as (n & _ & ->)); try reflexivity.
      now rewrite Hp.
    + now rewrite Hp.
  - intros Hf. now rewrite Hf in Hp.
  - intros n En Ht. rewrite En in Hp. now rewrite Ht in Hp.
Qed.

Lemma stored_port_is_a_number_witness :
  typeof (port (local_client good_key)) = "number"
  /\ port (local_client good_key) = VNum (Num 8989).
Proof.
  destruct (stored_port_is_a_number
              (with_port (minimal (VStr "localhost") (VStr good_key))
                 (VNum (Num 0)))
              (local_client good_key) eq_refl) as (Ht & Hd & _).
  split; [exact Ht | exact (Hd eq_refl)].
Defined.

Lemma urlBase_step_idempotent (v u : value) :
  urlBase_step v = Normal u -> urlBase_step u = Normal u.
Proof.
  unfold urlBase_step. destruct (truthy v) eqn:Ht.
  - destruct v as [| | | |s|]; cbn [call_charAt0 bindC]; try discriminate.
    destruct (String.eqb (charAt0 s) "/") eqn:E; cbn [negb]; intros [= <-].
    + rewrite Ht. cbn [call_charAt0 bindC]. now rewrite E.
    + reflexivity.
  - intros [= <-]. now rewrite Ht.
Qed.

(** X5. Normalizing the base path is idempotent: constructing again with
    the stored base path in place of the given one yields the same
    client. *)
Theorem stored_urlBase_is_stable (o : Options) (c : Client) :
  constructor o = Normal c ->
  constructor (with_urlBase o (urlBase c)) = Normal c.
Proof.
  intros H.
  destruct (constructor_inv _ _ H)
    as (h & k & p & u & Eh & Hh & Ek & Hk & Ep & Eu & _ & _ & _ & Hu & _).
  pose proof (proj1 (port_step_number _ _ Ep)) as Hp.
  destruct (constructor_with_strings o h k Eh Hh Ek Hp) as (n1 & Ep1 & E1).
  destruct (constructor_with_strings (with_urlBase o (urlBase c)) h k
              Eh Hh Ek Hp) as (n2 & Ep2 & E2).
  rewrite E2. rewrite E1 in H. cbn [with_urlBase o_port] in Ep2.
  rewrite Ep1 in Ep2. injection Ep2 as <-.
  rewrite Hk in *. cbn [Z.eqb Pos.eqb] in *. rewrite Eu in H.
  cbn [bindC] in H. cbn [with_urlBase o_urlBase].
  rewrite Hu, (urlBase_step_idempotent _ _ Eu). cbn [bindC]. exact H.
Qed.

Lemma stored_urlBase_is_stable_witness :
  constructor (with_urlBase tls_options (VStr "/sonarr")) = Normal tls_client.
Proof.
  apply (stored_urlBase_is_stable tls_options tls_client). reflexivity.
Defined.




(** *** A port given in decimal digits *)

Lemma digits_decimal (d : Decimal.uint) (seen : bool) (acc : Z) :
  d <> Decimal.Nil \/ seen = true ->
  digits 10 seen acc (NilEmpty.string_of_uint d) = Some (value_of d acc).
Proof.
  revert seen acc; induction d; intros seen acc H;
    try (cbn [NilEmpty.string_of_uint digits value_of];
         change (digit_value "0") with (Some 0);
         change (digit_value "1") with (Some 1);
         change (digit_value "2") with (Some 2);
         change (digit_value "3") with (Some 3);
         change (digit_value "4") with (Some 4);
         change (digit_value "5") with (Some 5);
         change (digit_value "6") with (Some 6);
         change (digit_value "7") with (Some 7);
         change (digit_value "8") with (Some 8);
         change (digit_value "9") with (Some 9);
         cbn [Z.ltb Z.compare Pos.compare Pos.compare_cont];
         apply IHd; now right).
  destruct H as [H | ->]; [now elim H | reflexivity].
Qed.

Lemma value_of_acc (d : Decimal.uint) (acc : positive) :
  value_of d (Z.pos acc) = Z.pos (Pos.of_uint_acc d acc).
Proof.
  revert acc; induction d; intros acc; cbn [value_of Pos.of_uint_acc];
    [reflexivity | ..];
    rewrite <- IHd; f_equal; lia.
Qed.

Lemma value_of_uint (d : Decimal.uint) : value_of d 0 = Z.of_uint d.
Proof.
  unfold Z.of_uint.
  induction d; cbn [value_of Pos.of_uint]; [reflexivity | exact IHd | ..];
    cbn [Z.mul Z.add]; now rewrite value_of_acc.
Qed.

Lemma parseInt_unsigned (d : Decimal.uint) :
  d <> Decimal.Nil ->
  parseInt (VStr (NilEmpty.string_of_uint d)) = Normal (Num (Z.of_uint d))
  /\ parseInt (VStr (String "-" (NilEmpty.string_of_uint d)))
     = Normal (Num (- Z.of_uint d)).
Proof.
  intros Hd. rewrite <- value_of_uint.
  assert (Hdigits : digits 10 false 0 (NilEmpty.string_of_uint d)
                    = Some (value_of d 0))
    by (apply digits_decimal; now left).
  unfold parseInt, ToString. cbn [stringifiable to_string bindC].
  unfold parse_integer.
  destruct d as [|l|l|l|l|l|l|l|l|l|l]; [now elim Hd | ..];
    try destruct l;
    cbn [NilEmpty.string_of_uint] in *;
    split;
    match goal with
    | |- context [trim_start (String ?c ?s)] =>
        change (trim_start (String c s)) with (String c s)
    end;
    cbv beta iota zeta;
    rewrite Hdigits; f_equal; f_equal; lia.
Qed.

Lemma string_of_uint_nonnil (d : Decimal.uint) :
  d <> Decimal.Nil -> NilZero.string_of_uint d = NilEmpty.string_of_uint d.
Proof. destruct d; [intros H; now elim H | reflexivity ..]. Qed.

Lemma parseInt_decimal (z : Z) :
  parseInt (VStr (string_of_Z z)) = Normal (Num z).
Proof.
  unfold string_of_Z.
  destruct z as [|p|p]; [reflexivity | |];
    cbn [Z.to_int NilZero.string_of_int];
    pose proof (DecimalPos.Unsigned.to_uint_nonnil p) as Hn;
    rewrite (string_of_uint_nonnil _ Hn).
  - rewrite (proj1 (parseInt_unsigned _ Hn)).
    unfold Z.of_uint. now rewrite DecimalPos.Unsigned.of_to.
  - rewrite (proj2 (parseInt_unsigned _ Hn)).
    unfold Z.of_uint. now rewrite DecimalPos.Unsigned.of_to.
Qed.

Lemma string_of_Z_nonempty (z : Z) : string_of_Z z <> "".
Proof.
  intros E. pose proof (parseInt_decimal z) as H. rewrite E in H.
  discriminate.
Qed.

Lemma port_step_decimal (z : Z) :
  port_step (or_else (VStr (string_of_Z z)) (VNum (Num 8989)))
  = Normal (VNum (Num z)).
Proof.
  unfold or_else, port_step. cbn [truthy].
  pose proof (string_of_Z_nonempty z) as Hne.
  apply String.eqb_neq in Hne. rewrite Hne. cbn [negb truthy].
  rewrite Hne. cbn [negb orb typeof].
  change (String.eqb "string" "number") with false. cbn [negb].
  now rewrite parseInt_decimal.
Qed.

Lemma port_step_nonzero (z : Z) :
  z <> 0 ->
  port_step (or_else (VNum (Num z)) (VNum (Num 8989))) = Normal (VNum (Num z)).
Proof.
  intros Hz. unfold or_else, port_step. cbn [truthy].
  apply Z.eqb_neq in Hz. rewrite Hz. cbn [negb truthy]. rewrite Hz.
  reflexivity.
Qed.

(** X7. A port given as the decimal digits of a non-zero integer yields
    the same outcome of the construction, client or error, as the same
    port given as a number. *)
Theorem decimal_port_equals_numeric_port (o : Options) (z : Z) :
  z <> 0 ->
  constructor (with_port o (VStr (string_of_Z z)))
  = constructor (with_port o (VNum (Num z))).
Proof.
  intros Hz. rewrite !constructor_steps.
  cbn [with_port o_hostname o_port o_apiKey o_urlBase].
  now rewrite port_step_decimal, (port_step_nonzero z Hz).
Qed.

Lemma decimal_port_equals_numeric_port_witness :
  constructor (with_port tls_options (VStr "443"))
  = constructor (with_port tls_options (VNum (Num 443))).
Proof.
  apply (decimal_port_equals_numeric_port tls_options 443). discriminate.
Defined.

(** The bound of X7: the digit "0" is a truthy string and is parsed to
    port 0, while the number 0 is falsy and replaced by 8989. *)
Example port_zero_string_and_number :
  constructor (with_port (minimal (VStr "localhost") (VStr good_key)) (VStr "0"))
  = Normal {|
      hostname := "localhost";
      port := VNum (Num 0);
      apiKey := good_key;
      urlBase := VUndefined;
      ssl := VBool false;
      username := VNull;
      password := VNull;
      auth := false;
      serverApi := "http://localhost:0/api/"
    |}
  /\ constructor (with_port (minimal (VStr "localhost") (VStr good_key))
                    (VNum (Num 0)))
     = Normal (local_client good_key).
Proof. split; reflexivity. Qed.

(** * Further properties of the requests *)






(** X10. A call that returns a promise handed exactly one request to the
    transport.  When the transport succeeds the promise is fulfilled with
    the response itself and the response is written once to the console;
    when it fails nothing is written.  (The answer of the transport may
    depend on the requests sent before.) *)
Theorem one_request_per_call
        (rp : list Request -> Request -> transport_result)
        (m : method) (this : Client) (rel ps : value) (w w' : world)
        (p : settled) :
  verb rp m this rel ps w = (Normal p, w') ->
  exists req,
    sent w' = (sent w ++ [req])%list
    /\ (forall response, rp (sent w) req = Success response ->
        p = Fulfilled response
        /\ console w' = (console w ++ [response])%list)
    /\ (forall e, rp (sent w) req = Failure e ->
        p = settle (on_failure e) /\ console w' = console w).
Proof.
  intros H.
  destruct (verb_returned rp m this rel ps w w' p H) as (_ & _ & _ & -> & ->).
  exists (request_of this m rel (default ps (VObj []))).
  split; [reflexivity|].
  split; intros x Hx; rewrite Hx; split; reflexivity.
Qed.

Lemma one_request_per_call_witness :
  exists req,
    sent (snd (get answer_empty (local_client good_key) (VStr "series")
                 VUndefined quiet))
    = (sent quiet ++ [req])%list
    /\ console (snd (get answer_empty (local_client good_key) (VStr "series")
                       VUndefined quiet))
       = (console quiet ++ [VObj []])%list.
Proof.
  destruct (one_request_per_call answer_empty GET (local_client good_key)
              (VStr "series") VUndefined quiet
              (snd (get answer_empty (local_client good_key) (VStr "series")
                      VUndefined quiet))
              (Fulfilled (VObj [])) eq_refl)
    as (req & Hs & Hok & _).
  exists req. split; [exact Hs|].
  exact (proj2 (Hok (VObj []) eq_refl)).
Defined.

(** *** How a failed request settles *)

Lemma prop_field (v : value) (name : string) :
  nullish v = false -> prop v name = Normal (field v name).
Proof. destruct v; cbn; intros H; try discriminate; reflexivity. Qed.

Lemma on_failure_settles (e : value) :
  settle (on_failure e)
  = if has_body e
    then Fulfilled
           (if is_string (field (field (field e "response") "body") "error")
                         "Unauthorized"
            then field (field e "response") "body"
            else e)
    else Rejected NativeTypeError.
Proof.
  unfold has_body.
  destruct (nullish e) eqn:He; cbn [negb andb].
  { apply on_failure_without_body. now left. }
  destruct (nullish (field e "response")) eqn:Hr; cbn [negb andb].
  { apply on_failure_without_body. right.
    exists (field e "response"). split; [now apply prop_field | now left]. }
  destruct (nullish (field (field e "response") "body")) eqn:Hb; cbn [negb].
  { apply on_failure_without_body. right.
    exists (field e "response"). split; [now apply prop_field | right].
    exists (field (field e "response") "body").
    split; [now apply prop_field | exact Hb]. }
  apply (on_failure_with_body e (field e "response")
           (field (field e "response") "body")); now apply prop_field.
Qed.

(** X12. The promise of a verb is rejected exactly when the transport
    failed with a failure that carries no [response.body]; the rejection
    is then the engine's TypeError, never the failure object.  A success
    of the transport is never turned into a rejection, and a failure that
    carries a body resolves to that body when its [error] is the string
    "Unauthorized" and to the failure object otherwise. *)
Theorem rejected_iff_failure_without_body
        (rp : list Request -> Request -> transport_result)
        (m : method) (this : Client) (rel ps : value) (w w' : world)
        (p : settled) :
  verb rp m this rel ps w = (Normal p, w') ->
  exists req,
    sent w' = (sent w ++ [req])%list
    /\ ((exists t, p = Rejected t)
        <-> (exists e, rp (sent w) req = Failure e /\ has_body e = false))
    /\ (forall t, p = Rejected t -> t = NativeTypeError)
    /\ (forall e, rp (sent w) req = Failure e -> has_body e = true ->
        p = Fulfilled
              (if is_string (field (field (field e "response") "body") "error")
                            "Unauthorized"
               then field (field e "response") "body"
               else e)).
Proof.
  intros H.
  destruct (verb_returned rp m this rel ps w w' p H) as (_ & _ & _ & -> & ->).
  exists (request_of this m rel (default ps (VObj []))).
  split; [reflexivity|].
  destruct (rp (sent w) _) as [response|e] eqn:E; cbn [outcome].
  - split; [|split].
    + split; [intros [t Ht]; discriminate | intros (e & He & _); discriminate].
    + discriminate.
    + discriminate.
  - rewrite on_failure_settles. split; [|split].
    + split.
      * intros [t Ht]. exists e. split; [reflexivity|].
        destruct (has_body e); [discriminate | reflexivity].
      * intros (e' & [= <-] & Hb). rewrite Hb. eauto.
    + intros t Ht. destruct (has_body e); [discriminate|].
      now injection Ht.
    + intros e' [= <-] Hb. now rewrite Hb.
Qed.

Lemma rejected_iff_failure_without_body_witness :
  exists e, Failure connection_refused = Failure e /\ has_body e = false.
Proof.
  destruct (rejected_iff_failure_without_body
              (fun _ _ => Failure connection_refused)
              GET (local_client good_key) (VStr "series") VUndefined quiet
              (snd (get (fun _ _ => Failure connection_refused)
                      (local_client good_key)
                      (VStr "series") VUndefined quiet))
              (Rejected NativeTypeError) eq_refl)
    as (req & _ & Hiff & _).
  apply (proj1 Hiff). now exists NativeTypeError.
Defined.

Lemma forallb_false {A} (f : A -> bool) (l : list A) :
  forallb f l = false <-> exists x, In x l /\ f x = false.
Proof.
  induction l as [|a l IH]; cbn [forallb In].
  - split; [discriminate | intros (x & [] & _)].
  - rewrite andb_false_iff, IH. split.
    + intros [H | (x & Hin & Hx)]; [exists a; auto | exists x; auto].
    + intros (x & [-> | Hin] & Hx); [now left | right; eauto].
Qed.

Lemma request_ok_false (this : Client) (m : method) (rel ps : value) :
  typeof ps = "object" ->
  request_ok this m rel ps = false
  <-> (stringifiable rel = false
       \/ (m = GET
           /\ exists key, In key (keys (own_properties ps))
                          /\ stringifiable (lookup key (own_properties ps))
                             = false)
       \/ (auth this = true
           /\ (stringifiable (username this) = false
               \/ stringifiable (password this) = false))).
Proof.
  intros Hps. unfold request_ok, sendable.
  rewrite !andb_false_iff.
  assert (Hq : (if truthy ps && method_eqb m GET
                then query_ok (own_properties ps) else true) = false
               <-> (m = GET
                    /\ exists key, In key (keys (own_properties ps))
                                   /\ stringifiable
                                        (lookup key (own_properties ps))
                                      = false)).
  { unfold query_ok. split.
    - destruct (truthy ps && method_eqb m GET) eqn:E; [|discriminate].
      intros H. apply forallb_false in H as (key & Hin & Hk).
      rewrite null_stringifiable in Hk.
      split; [destruct m; try reflexivity; now rewrite andb_false_r in E|].
      eauto.
    - intros (-> & key & Hin & Hk).
      destruct ps as [| | | | |props]; try discriminate.
      cbn [truthy andb]. change (method_eqb GET GET) with true. cbv iota.
      apply forallb_false. exists key. split; [exact Hin|].
      now rewrite null_stringifiable. }
  rewrite Hq. clear Hq.
  assert (Hc : (if auth this
                then stringifiable (username this)
                     && stringifiable (password this)
                else true) = false
               <-> (auth this = true
                    /\ (stringifiable (username this) = false
                        \/ stringifiable (password this) = false))).
  { destruct (auth this); [rewrite andb_false_iff; tauto|].
    split; [discriminate | intros [H _]; discriminate]. }
  rewrite Hc. tauto.
Qed.

(** X18. A call that passes both checks still raises, with the engine's
    TypeError and before anything is sent, exactly when a value that
    [_request] has to convert to a string cannot be converted: the
    relative URL, or a parameter value of a GET, or, in basic-auth mode,
    the user name or the password, is an object with an own [toString]
    property. *)
Theorem unconvertible_value_raises_before_sending
        (rp : list Request -> Request -> transport_result)
        (m : method) (this : Client) (rel ps : value) (w : world) :
  rel <> VUndefined ->
  typeof (default ps (VObj [])) = "object" ->
  (verb rp m this rel ps w = (Throw NativeTypeError, w)
   <-> (stringifiable rel = false
        \/ (m = GET
            /\ exists key,
                 In key (keys (own_properties (default ps (VObj []))))
                 /\ stringifiable
                      (lookup key (own_properties (default ps (VObj []))))
                    = false)
        \/ (auth this = true
            /\ (stringifiable (username this) = false
                \/ stringifiable (password this) = false))))
  /\ (forall t w', verb rp m this rel ps w = (Throw t, w') ->
      t = NativeTypeError /\ w' = w).
Proof.
  intros Hrel Hps. apply is_undefined_false in Hrel.
  rewrite <- (request_ok_false this m rel _ Hps).
  rewrite verb_run, Hrel, Hps, String.eqb_refl. cbn [negb].
  destruct (request_ok this m rel (default ps (VObj []))).
  - split; [split; discriminate | discriminate].
  - split; [split; reflexivity|]. now intros t w' [= <- <-].
Qed.

Lemma unconvertible_value_raises_before_sending_witness :
  get answer_empty (local_client good_key) (VObj [("toString", VNull)])
      VUndefined quiet
  = (Throw NativeTypeError, quiet).
Proof.
  apply (proj2 (proj1 (unconvertible_value_raises_before_sending answer_empty
                         GET (local_client good_key)
                         (VObj [("toString", VNull)]) VUndefined quiet
                         ltac:(discriminate) eq_refl))).
  now left.
Defined.

(** * Further properties of the query string *)

Lemma encode_unit_query_char (c : ascii) :
  all_chars query_char (encode_unit c) = true.
Proof. destruct c as [[] [] [] [] [] [] [] []]; vm_compute; reflexivity. Qed.

Lemma encodeURIComponent_query_char (s : string) :
  all_chars query_char (encodeURIComponent s) = true.
Proof.
  induction s as [|c s IH]; [reflexivity|].
  cbn [encodeURIComponent].
  now rewrite all_chars_app, IH, encode_unit_query_char.
Qed.

Lemma query_text_query_char (json : list (string * value)) :
  all_chars query_char (query_text json) = true.
Proof.
  unfold query_text. rewrite all_chars_app. cbn [all_chars andb].
  change (query_char "?") with true. cbn [andb].
  induction (keys json) as [|k [|k' ks] IH]; [reflexivity | |].
  - cbn [map String.concat].
    destruct (is_null (lookup k json)); [reflexivity|].
    now rewrite !all_chars_app, !encodeURIComponent_query_char.
  - change (String.concat "&" (map ?f (k :: k' :: ks)))
      with (f k ++ "&" ++ String.concat "&" (map f (k' :: ks))).
    rewrite !all_chars_app, IH.
    destruct (is_null (lookup k json)); [reflexivity|].
    now rewrite !all_chars_app, !encodeURIComponent_query_char.
Qed.

(** X13. Whatever the keys and values are, the query string, whenever
    one is produced, consists only of letters, digits, the marks
    [- _ . ! ~ * ' ( )], percent escapes and the separators [?], [&] and
    [=]: no space, [#], [/] or other reserved character of a key or value
    reaches the URL unescaped. *)
Theorem query_string_is_url_safe (json : list (string * value)) (q : string) :
  jsonToQueryString json = Normal q ->
  all_chars query_char q = true
  /\ query_char " " = false /\ query_char "#" = false
  /\ query_char "/" = false /\ query_char "+" = false.
Proof.
  rewrite jsonToQueryString_cases.
  destruct (query_ok json); [|discriminate]. intros [= <-].
  split; [apply query_text_query_char | repeat split].
Qed.

Lemma query_string_is_url_safe_witness :
  all_chars query_char "?term=a%20b%26c&monitored=true" = true.
Proof.
  apply (proj1 (query_string_is_url_safe
                  [("term", VStr "a b&c"); ("monitored", VBool true)]
                  "?term=a%20b%26c&monitored=true" eq_refl)).
Defined.

Lemma encodeURIComponent_unreserved (s : string) :
  all_chars unreserved s = true -> encodeURIComponent s = s.
Proof.
  induction s as [|c s IH]; [reflexivity|].
  cbn [all_chars encodeURIComponent]. intros H.
  apply andb_true_iff in H as [Hc Hs].
  unfold encode_unit. now rewrite Hc, (IH Hs).
Qed.

(** X14. Keys and values made only of unreserved characters appear in
    the query string as they are: for a mapping without [null] values
    whose keys and value strings are unreserved, the query string is [?]
    followed by the plain [key=value] pairs joined with [&]. *)
Theorem unreserved_pairs_are_verbatim (ps : list (string * value)) :
  NoDup (keys ps) ->
  Forall (fun kv => is_null (snd kv) = false
                    /\ all_chars unreserved (fst kv) = true
                    /\ all_chars unreserved (to_string (snd kv)) = true) ps ->
  jsonToQueryString ps
  = Normal ("?" ++ String.concat "&" (map plain_pair ps)).
Proof.
  intros Hnd Hall.
  assert (Hconv : Forall (fun kv => stringifiable (snd kv) = true) ps).
  { eapply Forall_impl; [|exact Hall]. intros [k v] (_ & _ & Hv).
    cbn [snd] in *. destruct v; try reflexivity. discriminate. }
  rewrite (jsonToQueryString_pairs ps Hnd Hconv).
  do 3 f_equal. apply map_ext_in. intros kv Hin.
  rewrite Forall_forall in Hall. destruct (Hall kv Hin) as (Hn & Hk & Hv).
  unfold pair_of, plain_pair. rewrite Hn.
  now rewrite (encodeURIComponent_unreserved _ Hk),
              (encodeURIComponent_unreserved _ Hv).
Qed.

Lemma unreserved_pairs_are_verbatim_witness :
  jsonToQueryString [("seriesId", VNum (Num 12)); ("sortKey", VStr "title")]
  = Normal ("?" ++ String.concat "&" ["seriesId=12"; "sortKey=title"]).
Proof.
  apply (unreserved_pairs_are_verbatim
           [("seriesId", VNum (Num 12)); ("sortKey", VStr "title")]).
  - repeat constructor; simpl; intuition discriminate.
  - repeat constructor.
Defined.

Lemma concat_empty_segments (ps : list (string * value)) :
  Forall (fun kv => snd kv = VNull) ps ->
  String.concat "&" (map pair_of ps) = ampersands (List.length ps - 1).
Proof.
  induction ps as [|kv [|kv' ps] IH]; intros H; [reflexivity | |].
  - inversion H as [|? ? Hkv _]; subst.
    unfold pair_of. simpl. now rewrite Hkv.
  - inversion H as [|? ? Hkv Hrest]; subst.
    change (String.concat "&" (map pair_of (kv :: kv' :: ps)))
      with (pair_of kv ++ "&" ++ String.concat "&" (map pair_of (kv' :: ps))).
    rewrite (IH Hrest). unfold pair_of at 1. rewrite Hkv. simpl.
    now rewrite Nat.sub_0_r.
Qed.

(** X15. A mapping whose values are all [null] leaves nothing but the
    separators in the query string: [?] followed by one [&] less than
    there are keys.  In particular a single [null] parameter gives the
    same bare [?] as no parameter at all. *)
Theorem all_null_parameters_leave_separators (ps : list (string * value)) :
  NoDup (keys ps) ->
  Forall (fun kv => snd kv = VNull) ps ->
  jsonToQueryString ps = Normal ("?" ++ ampersands (List.length ps - 1))
  /\ (List.length ps = 1%nat -> jsonToQueryString ps = jsonToQueryString []).
Proof.
  intros Hnd Hall.
  assert (Hconv : Forall (fun kv => stringifiable (snd kv) = true) ps).
  { eapply Forall_impl; [|exact Hall]. intros kv E. now rewrite E. }
  assert (E : jsonToQueryString ps
              = Normal ("?" ++ ampersands (List.length ps - 1)))
    by now rewrite (jsonToQueryString_pairs ps Hnd Hconv),
                   concat_empty_segments.
  split; [exact E|]. intros Hlen. now rewrite E, Hlen.
Qed.

Lemma all_null_parameters_leave_separators_witness :
  jsonToQueryString [("a", VNull); ("b", VNull); ("c", VNull)]
  = Normal "?&&".
Proof.
  apply (proj1 (all_null_parameters_leave_separators
                  [("a", VNull); ("b", VNull); ("c", VNull)]
                  ltac:(repeat constructor; simpl; intuition discriminate)
                  ltac:(repeat constructor))).
Defined.

(** *** The query string determines the parameters *)

Lemma decode_first_encode_unit (c : ascii) (rest : string) :
  decode_first (encode_unit c ++ rest) = Some (c, rest).
Proof. destruct c as [[] [] [] [] [] [] [] []]; reflexivity. Qed.

Lemma encodeURIComponent_injective (a b : string) :
  encodeURIComponent a = encodeURIComponent b -> a = b.
Proof.
  revert b; induction a as [|c a IH]; intros [|d b] H.
  - reflexivity.
  - apply (f_equal decode_first) in H. cbn [encodeURIComponent] in H.
    rewrite decode_first_encode_unit in H. discriminate.
  - apply (f_equal decode_first) in H. cbn [encodeURIComponent] in H.
    rewrite decode_first_encode_unit in H. discriminate.
  - apply (f_equal decode_first) in H. cbn [encodeURIComponent] in H.
    rewrite !decode_first_encode_unit in H. injection H as -> H.
    now rewrite (IH b H).
Qed.

Lemma encode_unit_no_eq (c : ascii) : no_eq (encode_unit c) = true.
Proof. destruct c as [[] [] [] [] [] [] [] []]; vm_compute; reflexivity. Qed.

Lemma encodeURIComponent_no_eq (s : string) :
  no_eq (encodeURIComponent s) = true.
Proof.
  induction s as [|c s IH]; [reflexivity|].
  pose proof (encode_unit_no_eq c) as Hc.
  unfold no_eq in *. cbn [encodeURIComponent].
  now rewrite all_chars_app, IH, Hc.
Qed.

Lemma split_at_eq (a1 b1 a2 b2 : string) :
  no_eq a1 = true -> no_eq a2 = true ->
  a1 ++ String "=" b1 = a2 ++ String "=" b2 -> a1 = a2 /\ b1 = b2.
Proof.
  unfold no_eq.
  revert a2; induction a1 as [|x a1 IH]; intros [|y a2] H1 H2 E;
    cbn [append all_chars] in *.
  - now injection E.
  - injection E as <- _. now rewrite Ascii.eqb_refl in H2.
  - injection E as -> _. now rewrite Ascii.eqb_refl in H1.
  - injection E as -> E.
    apply andb_true_iff in H1 as [_ H1]. apply andb_true_iff in H2 as [_ H2].
    destruct (IH a2 H1 H2 E) as [-> ->]. now split.
Qed.

Lemma pair_of_injective (kv kv' : string * value) :
  snd kv <> VNull -> snd kv' <> VNull ->
  pair_of kv = pair_of kv' -> shown kv = shown kv'.
Proof.
  destruct kv as [k v], kv' as [k' v']. unfold pair_of, shown. cbn [fst snd].
  intros Hv Hv' E.
  replace (is_null v) with false in E by (destruct v; try reflexivity; now elim Hv).
  replace (is_null v') with false in E by (destruct v'; try reflexivity; now elim Hv').
  apply split_at_eq in E as [Ek Ev]; try apply encodeURIComponent_no_eq.
  apply encodeURIComponent_injective in Ek.
  apply encodeURIComponent_injective in Ev. now rewrite Ek, Ev.
Qed.

Lemma pairs_injective (ps qs : list (string * value)) :
  Forall (fun kv => snd kv <> VNull) ps ->
  Forall (fun kv => snd kv <> VNull) qs ->
  map pair_of ps = map pair_of qs -> map shown ps = map shown qs.
Proof.
  revert qs; induction ps as [|kv ps IH]; intros [|kv' qs] Hp Hq E;
    try discriminate; [reflexivity|].
  inversion Hp; inversion Hq; subst. cbn [map] in *. injection E as E1 E2.
  f_equal; [now apply pair_of_injective | now apply IH].
Qed.

Lemma pair_of_nonempty (kv : string * value) :
  snd kv <> VNull -> pair_of kv <> "".
Proof.
  intros Hv. unfold pair_of.
  replace (is_null (snd kv)) with false
    by (destruct (snd kv); try reflexivity; now elim Hv).
  destruct (encodeURIComponent (fst kv)); discriminate.
Qed.

Lemma concat_pairs_nonempty (kv : string * value) (ps : list (string * value)) :
  snd kv <> VNull -> String.concat "&" (map pair_of (kv :: ps)) <> "".
Proof.
  intros Hv. pose proof (pair_of_nonempty kv Hv) as Hne.
  destruct ps as [|kv' ps]; [exact Hne|].
  change (String.concat "&" (map pair_of (kv :: kv' :: ps)))
    with (pair_of kv ++ "&" ++ String.concat "&" (map pair_of (kv' :: ps))).
  destruct (pair_of kv); [now elim Hne | discriminate].
Qed.

(** X16. The query string determines the parameters it was made from:
    two mappings without [null] values that give the same query string
    have the same keys, in the same order, with values of the same string
    form.  (The string form is all that is kept: the number 5 and the
    string "5" give the same query.) *)
Theorem query_string_determines_parameters
        (ps qs : list (string * value)) (q : string) :
  NoDup (keys ps) -> NoDup (keys qs) ->
  Forall (fun kv => snd kv <> VNull) ps ->
  Forall (fun kv => snd kv <> VNull) qs ->
  jsonToQueryString ps = Normal q ->
  jsonToQueryString qs = Normal q ->
  map shown ps = map shown qs.
Proof.
  intros Np Nq Hp Hq Ep Eq.
  rewrite jsonToQueryString_cases in Ep, Eq.
  destruct (query_ok ps); [|discriminate].
  destruct (query_ok qs); [|discriminate].
  rewrite (query_text_pairs ps Np) in Ep.
  rewrite (query_text_pairs qs Nq) in Eq.
  rewrite <- Eq in Ep. injection Ep as E.
  destruct ps as [|kv ps], qs as [|kv' qs].
  - reflexivity.
  - exfalso. inversion Hq; subst.
    now apply (concat_pairs_nonempty kv' qs).
  - exfalso. inversion Hp; subst.
    now apply (concat_pairs_nonempty kv ps).
  - apply pairs_injective; try assumption.
    rewrite <- (split_amp_concat (map pair_of (kv :: ps)));
      [|discriminate | apply pairs_no_amp].
    rewrite <- (split_amp_concat (map pair_of (kv' :: qs)));
      [|discriminate | apply pairs_no_amp].
    now rewrite E.
Qed.

Lemma query_string_determines_parameters_witness :
  map shown [("id", VNum (Num 5)); ("q", VStr "a b")]
  = map shown [("id", VStr "5"); ("q", VStr "a b")].
Proof.
  apply (query_string_determines_parameters
           [("id", VNum (Num 5)); ("q", VStr "a b")]
           [("id", VStr "5"); ("q", VStr "a b")]
           "?id=5&q=a%20b").
  - repeat constructor; simpl; intuition discriminate.
  - repeat constructor; simpl; intuition discriminate.
  - repeat constructor; discriminate.
  - repeat constructor; discriminate.
  - reflexivity.
  - reflexivity.
Defined.

(** X19. The port error is raised exactly when the host name is accepted
    and the port is an object that cannot be converted to a string (it
    has an own [toString] property), which makes [parseInt] raise; no
    string, number or boolean given as port, parsable or not, ever
    raises it. *)
Theorem port_error_only_for_unconvertible_port (o : Options) :
  (constructor o = Throw (UserTypeError "Port is not a number")
   <-> ((exists h, o_hostname o = VStr h /\ h <> "")
        /\ stringifiable (o_port o) = false))
  /\ (forall s, stringifiable (VStr s) = true)
  /\ (forall n, stringifiable (VNum n) = true)
  /\ (forall b, stringifiable (VBool b) = true).
Proof. split; [exact (port_error_iff o) | repeat split]. Qed.

Lemma port_error_only_for_unconvertible_port_witness :
  constructor (with_port (minimal (VStr "localhost") (VStr good_key))
                 (VObj [("toString", VNull)]))
  = Throw (UserTypeError "Port is not a number").
Proof.
  apply (proj2 (proj1 (port_error_only_for_unconvertible_port
                         (with_port (minimal (VStr "localhost") (VStr good_key))
                            (VObj [("toString", VNull)]))))).
  split; [exists "localhost"; split; [reflexivity | discriminate]|].
  reflexivity.
Defined.
